(** * Epub2Summary: chapter segmentation and summary merging

    A shallow embedding of [epub_handler.py] (text normalisation, the three
    chapter detectors and the two orchestrating entry points) and of
    [merge_summaries] from [ai_handler.py], with the properties the
    specification states about them.

    Conventions of the embedding:
    - Python strings are sequences of Unicode code points, modelled as
      [list N]; the character classes ([str.isspace], line boundaries, case
      folding under IGNORECASE) are those of CPython.
    - Chapter records are the dictionaries the code builds; the keys
      [href] and [level], which only some detectors set, are options.
    - Markup is modelled after parsing: an element tree for lxml and for
      BeautifulSoup. The loaded book is the list of its items and its
      table of contents.
    - Calls that can raise return an option or a sum, and the handlers of
      the code are written out.
    - List objects live in a heap, so that the list passed to
      [merge_summaries] and the list it iterates over can be told apart.
    - Paths use [/] as separator; file names are shorter than the limit
      that [int] puts on the length of a numeral. *)

From Stdlib Require Import NArith Ascii String Decimal DecimalNat.
From stdpp Require Import gmap list sorting.

Local Open Scope N_scope.

(** ** Python string primitives *)

Module PyStr.

Abbreviation str := (list N).

(** ASCII literal to code points. *)
Definition lit (s : string) : str := map N_of_ascii (list_ascii_of_string s).

Definition LF : N := 10.
Definition CR : N := 13.
Definition SP : N := 32.
Definition HASH : N := 35.
Definition SLASH : N := 47.
Definition USCORE : N := 95.

(** [str.isspace] on one code point; also the class [\s] of [re] on [str]
    patterns. *)
Definition is_space (c : N) : bool :=
  ((9 <=? c) && (c <=? 13)) || ((28 <=? c) && (c <=? 32))
  || (c =? 0x85) || (c =? 0xA0) || (c =? 0x1680)
  || ((0x2000 <=? c) && (c <=? 0x200A))
  || (c =? 0x2028) || (c =? 0x2029) || (c =? 0x202F) || (c =? 0x205F)
  || (c =? 0x3000).

(** The line boundaries of [str.splitlines]. *)
Definition is_linebreak (c : N) : bool :=
  ((10 <=? c) && (c <=? 13)) || ((28 <=? c) && (c <=? 30))
  || (c =? 0x85) || (c =? 0x2028) || (c =? 0x2029).

(** The truth value of a string or of a list. *)
Definition truthy {A} (s : list A) : bool :=
  match s with [] => false | _ => true end.

(** [s.lstrip()], [s.rstrip()], [s.strip()] *)
Fixpoint lstrip (s : str) : str :=
  match s with
  | [] => []
  | c :: t => if is_space c then lstrip t else s
  end.

Fixpoint rstrip (s : str) : str :=
  match s with
  | [] => []
  | c :: t =>
      match rstrip t with
      | [] => if is_space c then [] else [c]
      | r => c :: r
      end
  end.

Definition strip (s : str) : str := rstrip (lstrip s).

(** [sep.join(parts)] *)
Fixpoint join (sep : str) (parts : list str) : str :=
  match parts with
  | [] => []
  | p :: rest =>
      match rest with
      | [] => p
      | _ => p ++ sep ++ join sep rest
      end
  end.

(** Put a character in front of the first part of a split. *)
Definition push_front (c : N) (parts : list str) : list str :=
  match parts with
  | [] => [[c]]
  | p :: ps => (c :: p) :: ps
  end.

(** [s.split(c)] for a one-character separator: never empty, one more part
    than there are separators. *)
Fixpoint split_char (sep : N) (s : str) : list str :=
  match s with
  | [] => [[]]
  | c :: t =>
      if c =? sep then [] :: split_char sep t
      else push_front c (split_char sep t)
  end.

(** [s.split("  ")]: the separator is exactly two spaces, found left to
    right without overlap. *)
Fixpoint split_2sp (s : str) : list str :=
  match s with
  | [] => [[]]
  | c :: t =>
      match t with
      | c2 :: t2 =>
          if (c =? SP) && (c2 =? SP) then [] :: split_2sp t2
          else push_front c (split_2sp t)
      | [] => push_front c (split_2sp t)
      end
  end.

(** [s.splitlines()]: a line ends at every line boundary, CR LF counts as
    one boundary, and no empty line is produced after the last boundary. *)
Fixpoint splitlines (s : str) : list str :=
  match s with
  | [] => []
  | c :: t =>
      if is_linebreak c then
        [] :: match t with
              | c2 :: t2 =>
                  if (c =? CR) && (c2 =? LF) then splitlines t2
                  else splitlines t
              | [] => splitlines t
              end
      else push_front c (splitlines t)
  end.

(** [s.startswith(p)] *)
Fixpoint startswith (p s : str) : bool :=
  match p, s with
  | [], _ => true
  | a :: p', b :: s' => (a =? b) && startswith p' s'
  | _ :: _, [] => false
  end.

(** [s.replace(old, new)] for a non-empty [old]; the fuel is the length of
    [s], which bounds the number of steps. *)
Fixpoint replace_fuel (fuel : nat) (old new s : str) : str :=
  match fuel with
  | O => s
  | S fuel' =>
      match s with
      | [] => []
      | c :: t =>
          if startswith old s
          then new ++ replace_fuel fuel' old new (drop (length old) s)
          else c :: replace_fuel fuel' old new t
      end
  end.

Definition replace (old new s : str) : str :=
  replace_fuel (length s) old new s.

(** [os.path.basename] with [/] as the separator: what follows the last
    separator. *)
Fixpoint basename (p : str) : str :=
  match p with
  | [] => []
  | c :: t => if existsb (N.eqb SLASH) p
              then basename t
              else p
  end.

(** [str(n)] for a natural number. *)
Fixpoint uint_digits (u : Decimal.uint) : str :=
  match u with
  | Nil => []
  | D0 r => 48 :: uint_digits r
  | D1 r => 49 :: uint_digits r
  | D2 r => 50 :: uint_digits r
  | D3 r => 51 :: uint_digits r
  | D4 r => 52 :: uint_digits r
  | D5 r => 53 :: uint_digits r
  | D6 r => 54 :: uint_digits r
  | D7 r => 55 :: uint_digits r
  | D8 r => 56 :: uint_digits r
  | D9 r => 57 :: uint_digits r
  end.

Definition str_of_nat (n : nat) : str := uint_digits (Nat.to_uint n).

(** The first part of a split, when it has a first character, starts with
    [c]. *)
Definition heads_with (c : N) (parts : list str) : Prop :=
  match parts with
  | (d :: _) :: _ => d = c
  | _ => True
  end.

(** Predicates used to describe cleaned-up text: no line boundary occurs in
    the string; two adjacent spaces occur somewhere in the string. *)
Definition no_linebreak (s : str) : Prop :=
  Forall (fun c => is_linebreak c = false) s.

Fixpoint has_2sp (s : str) : bool :=
  match s with
  | [] => false
  | c :: t =>
      match t with
      | c2 :: _ => ((c =? SP) && (c2 =? SP)) || has_2sp t
      | [] => false
      end
  end.

End PyStr.

(** ** Regular expressions

    The patterns of the program use no back-references or look-around, so
    whether [re.match] succeeds is a question of language membership; it
    is decided here with Brzozowski derivatives. *)

Module Regex.
Import PyStr.

Inductive regex : Type :=
| Void
| Eps
| Chr (p : N -> bool)
| Cat (r1 r2 : regex)
| Alt (r1 r2 : regex)
| Star (r : regex).

Inductive matches : regex -> str -> Prop :=
| MEps : matches Eps []
| MChr p c : p c = true -> matches (Chr p) [c]
| MCat r1 r2 s1 s2 :
    matches r1 s1 -> matches r2 s2 -> matches (Cat r1 r2) (s1 ++ s2)
| MAltL r1 r2 s : matches r1 s -> matches (Alt r1 r2) s
| MAltR r1 r2 s : matches r2 s -> matches (Alt r1 r2) s
| MStar0 r : matches (Star r) []
| MStarS r s1 s2 :
    matches r s1 -> matches (Star r) s2 -> matches (Star r) (s1 ++ s2).

Fixpoint nullable (r : regex) : bool :=
  match r with
  | Void => false
  | Eps => true
  | Chr _ => false
  | Cat r1 r2 => nullable r1 && nullable r2
  | Alt r1 r2 => nullable r1 || nullable r2
  | Star _ => true
  end.

(** Constructors that drop [Void] and [Eps] where they change nothing, to
    keep derivatives small. *)
Definition cat (r1 r2 : regex) : regex :=
  match r1 with
  | Void => Void
  | Eps => r2
  | _ => Cat r1 r2
  end.

Definition alt (r1 r2 : regex) : regex :=
  match r1, r2 with
  | Void, _ => r2
  | _, Void => r1
  | _, _ => Alt r1 r2
  end.

Fixpoint deriv (c : N) (r : regex) : regex :=
  match r with
  | Void => Void
  | Eps => Void
  | Chr p => if p c then Eps else Void
  | Cat r1 r2 =>
      if nullable r1 then alt (cat (deriv c r1) r2) (deriv c r2)
      else cat (deriv c r1) r2
  | Alt r1 r2 => alt (deriv c r1) (deriv c r2)
  | Star r1 => cat (deriv c r1) (Star r1)
  end.

Fixpoint fullmatch (r : regex) (s : str) : bool :=
  match s with
  | [] => nullable r
  | c :: t => fullmatch (deriv c r) t
  end.

Definition plus (r : regex) : regex := Cat r (Star r).
Definition opt (r : regex) : regex := Alt r Eps.

(** [.] without DOTALL, [\s], [\S], a literal and a character set. *)
Definition dot : regex := Chr (fun c => negb (c =? LF)).
Definition space : regex := Chr is_space.
Definition nonspace : regex := Chr (fun c => negb (is_space c)).
Definition chr (a : N) : regex := Chr (N.eqb a).
Definition oneof (l : list N) : regex := Chr (fun c => existsb (N.eqb c) l).

(** IGNORECASE on a lower-case ASCII literal [a]: the character matches
    when its simple lower-case form is [a], or is the other member of the
    pairs i/U+0131 and s/U+017F that [re] treats as equivalent. Among the
    characters outside ASCII only U+0130 and U+212A have an ASCII letter
    as lower-case form. *)
Definition tolower (c : N) : N :=
  if (65 <=? c) && (c <=? 90) then c + 32
  else if c =? 0x130 then 105
  else if c =? 0x212A then 107
  else c.

Definition ci_eq (a c : N) : bool :=
  let lo := tolower c in
  (lo =? a) || ((a =? 105) && (lo =? 0x131)) || ((a =? 115) && (lo =? 0x17F)).

Definition chr_ci (a : N) : regex := Chr (ci_eq a).

Definition word_ci (w : string) : regex :=
  fold_right (fun a r => Cat (chr_ci a) r) Eps (lit w).

(** Every alternative of the pattern starts with a character class that
    holds no white space. *)
Fixpoint first_nonspace (r : regex) : Prop :=
  match r with
  | Chr p => forall c, p c = true -> is_space c = false
  | Cat r1 _ => first_nonspace r1
  | Alt r1 r2 => first_nonspace r1 /\ first_nonspace r2
  | _ => False
  end.

(** [re.match(p + '$', s)]: [p] has to match from the start up to the end
    of [s] or up to a final line feed. *)
Definition match_to_end (p : regex) (s : str) : bool :=
  fullmatch (Cat p (opt (chr LF))) s.

(** [re.search(p, s)] and [re.search(p + '$', s)]. *)
Definition anychar : regex := Chr (fun _ => true).

Definition search (p : regex) (s : str) : bool :=
  fullmatch (Cat (Star anychar) (Cat p (Star anychar))) s.

Definition search_to_end (p : regex) (s : str) : bool :=
  fullmatch (Cat (Star anychar) (Cat p (opt (chr LF)))) s.

End Regex.

(** ** epub_handler.py *)

Module EpubHandler.
Import PyStr.

(** The whitespace clean-up shared by [extract_text_from_html] (lines 29-31)
    and [split_by_xpath] (lines 120-122):
    [lines = (line.strip() for line in text.splitlines())],
    [chunks = (phrase.strip() for line in lines for phrase in line.split("  "))],
    [text = '\n'.join(chunk for chunk in chunks if chunk)]. *)
Definition clean_text (text : str) : str :=
  let lines := map strip (splitlines text) in
  let chunks := flat_map (fun line => map strip (split_2sp line)) lines in
  join [LF] (List.filter truthy chunks).

(** The normalizer as the specification words it: lines are trimmed, split
    at every run of two or more spaces into phrases, the phrases trimmed,
    the empty ones dropped and the rest joined with single newlines.
    [in_run] says that the characters just read were a separating run. *)
Fixpoint split_space_runs_from (in_run : bool) (s : str) : list str :=
  match s with
  | [] => [[]]
  | c :: t =>
      if in_run && (c =? SP) then split_space_runs_from true t
      else
        match t with
        | c2 :: t2 =>
            if (c =? SP) && (c2 =? SP) then [] :: split_space_runs_from true t2
            else push_front c (split_space_runs_from false t)
        | [] => push_front c (split_space_runs_from false t)
        end
  end.

Definition split_space_runs (s : str) : list str := split_space_runs_from false s.

(** The trimmed, non-empty phrases of a split line. *)
Definition phrases (parts : list str) : list str :=
  List.filter truthy (map strip parts).

Definition normalizer_spec (text : str) : str :=
  join [LF]
    (flat_map (fun line => phrases (split_space_runs line))
       (map strip (splitlines text))).

(** What every chunk of cleaned-up text satisfies. *)
Definition clean_chunk (p : str) : Prop :=
  p <> [] /\ no_linebreak p /\ strip p = p /\ has_2sp p = false.

(** The chapter dictionaries; [href] and [level] are the keys only some
    detectors set. *)
Record chapter : Type := Chapter {
  title : str;
  content : str;
  href : option str;
  level : option nat
}.

(** [{'title': t, 'content': c}] *)
Definition plain_chapter (t c : str) : chapter :=
  {| title := t; content := c; href := None; level := None |}.

(** *** The pattern detector *)

(** The class of numerals of [chapter_regex]. *)
Definition cjk_numeral : Regex.regex :=
  Regex.oneof [0x4E00; 0x4E8C; 0x4E09; 0x56DB; 0x4E94; 0x516D; 0x4E03; 0x516B;
               0x4E5D; 0x5341; 0x96F6; 0x3007; 0x767E; 0x5343; 0x4E07; 0x4E24;
               48; 49; 50; 51; 52; 53; 54; 55; 56; 57].

(** The class of a space or an ideographic space. *)
Definition blank : Regex.regex := Regex.oneof [0x20; 0x3000].

(** The alternatives of the chapter marker, in the order of the pattern:
    U+7B2C numerals U+7AE0 or U+5377; U+5377 numerals; [chap(?:ter)\.?];
    [vol(?:ume)?\.?]; [book]; [bk]. *)
Definition chapter_marker : Regex.regex :=
  Regex.Alt (Regex.Cat (Regex.chr 0x7B2C)
               (Regex.Cat (Regex.plus cjk_numeral) (Regex.oneof [0x7AE0; 0x5377])))
 (Regex.Alt (Regex.Cat (Regex.chr 0x5377) (Regex.plus cjk_numeral))
 (Regex.Alt (Regex.Cat (Regex.word_ci "chap")
               (Regex.Cat (Regex.word_ci "ter") (Regex.opt (Regex.chr 46))))
 (Regex.Alt (Regex.Cat (Regex.word_ci "vol")
               (Regex.Cat (Regex.opt (Regex.word_ci "ume")) (Regex.opt (Regex.chr 46))))
 (Regex.Alt (Regex.word_ci "book") (Regex.word_ci "bk"))))).

(** [self.chapter_regex] between [^] and [$]: an optional label ending in
    blanks, the marker, an optional title after blanks, trailing blanks. *)
Definition chapter_regex : Regex.regex :=
  Regex.Cat (Regex.Alt (Regex.Cat (Regex.plus Regex.dot) (Regex.plus blank)) Regex.Eps)
 (Regex.Cat chapter_marker
 (Regex.Cat (Regex.opt (Regex.Cat (Regex.plus blank)
                          (Regex.opt (Regex.Cat Regex.nonspace (Regex.Star Regex.dot)))))
            (Regex.Star blank))).

(** [re.match(self.chapter_regex, line, re.IGNORECASE)] as a truth value. *)
Definition is_chapter_line (line : str) : bool :=
  Regex.match_to_end chapter_regex line.

(** The truth value of [current_chapter], which is [None] or a string. *)
Definition truthy_opt (o : option str) : bool :=
  match o with
  | Some s => truthy s
  | None => false
  end.

(** The state of the loop of [split_by_regex]. *)
Record regex_state : Type := RegexState {
  chapters_so_far : list chapter;
  current_chapter : option str;
  current_content : list str
}.

Definition regex_flush (st : regex_state) : list chapter :=
  match current_chapter st with
  | Some t =>
      if truthy t
      then chapters_so_far st ++ [plain_chapter t (join [LF] (current_content st))]
      else chapters_so_far st
  | None => chapters_so_far st
  end.

Definition regex_step (st : regex_state) (line : str) : regex_state :=
  if is_chapter_line line then
    {| chapters_so_far := regex_flush st;
       current_chapter := Some (strip line);
       current_content := [] |}
  else if truthy_opt (current_chapter st) then
    {| chapters_so_far := chapters_so_far st;
       current_chapter := current_chapter st;
       current_content := current_content st ++ [line] |}
  else st.

Definition split_by_regex (text : str) : list chapter :=
  let lines := split_char LF text in
  regex_flush (fold_left regex_step lines (RegexState [] None [])).

(** The chapters of a list of lines as the specification words them: every
    heading line opens a chapter titled with the trimmed line, whose
    content is the run of lines up to the next heading line; lines before
    the first heading belong to no chapter. *)
Fixpoint body_lines (lines : list str) : list str :=
  match lines with
  | [] => []
  | l :: rest => if is_chapter_line l then [] else l :: body_lines rest
  end.

Fixpoint chapters_of_lines (lines : list str) : list chapter :=
  match lines with
  | [] => []
  | l :: rest =>
      if is_chapter_line l
      then plain_chapter (strip l) (join [LF] (body_lines rest))
             :: chapters_of_lines rest
      else chapters_of_lines rest
  end.

(** *** Parsed markup *)

(** An element as lxml presents it: tag, [class] attribute, the text before
    its first child, the children, and the text that follows the element
    inside its parent. Comments and processing instructions are left out. *)
#[warnings="-register-all"]
Inductive node : Type :=
| Element (tag : str) (class : option str) (text : str)
          (children : list node) (tail : str).

Definition tag_of (n : node) : str := let 'Element t _ _ _ _ := n in t.
Definition class_of (n : node) : option str := let 'Element _ c _ _ _ := n in c.
Definition tail_of (n : node) : str := let 'Element _ _ _ _ t := n in t.

(** The string value of an element: its text and that of its descendants,
    tails of descendants included, its own tail excluded. This is what
    XPath sees as [.] and what [text_content()] of [lxml.html] returns. *)
Fixpoint rendered_text (n : node) : str :=
  match n with
  | Element _ _ txt cs _ =>
      txt ++ flat_map (fun ch => rendered_text ch ++ tail_of ch) cs
  end.

(** [soup.get_text()] once every [script] and [style] element has been
    decomposed. *)
Fixpoint get_text (n : node) : str :=
  match n with
  | Element tg _ txt cs _ =>
      if bool_decide (tg = lit "script") || bool_decide (tg = lit "style")
      then []
      else txt ++ flat_map (fun ch => get_text ch ++ tail_of ch) cs
  end.

(** What the two parsers make of one [html_content]: the BeautifulSoup
    document, and the lxml root element, absent when lxml raises. *)
Record html : Type := Html {
  soup : node;
  etree : option node
}.

Definition extract_text_from_html (html_content : html) : str :=
  clean_text (get_text (soup html_content)).

(** *** The loaded book *)

(** An item of the container, with what [get_type() == ITEM_DOCUMENT],
    [get_name()] and [get_content()] give. *)
Record item : Type := Item {
  is_document : bool;
  get_name : str;
  get_content : html
}.

(** An entry of the table of contents: [href] when the entry has that
    attribute, [title], and [items], empty when the attribute is absent. *)
#[warnings="-register-all"]
Inductive toc_item : Type :=
| TocItem (toc_href : option str) (toc_title : str) (toc_items : list toc_item).

Record book : Type := Book {
  get_items : list item;
  toc : list toc_item
}.

Definition get_item_with_href (b : book) (h : str) : option item :=
  List.find (fun it => bool_decide (get_name it = h)) (get_items b).

Definition documents (b : book) : list item :=
  List.filter is_document (get_items b).

Definition extract_all_text (b : book) : str :=
  join [LF]
    (List.filter truthy
       (map (fun it => extract_text_from_html (get_content it)) (documents b))).

(** [f'chapter_{i}.html'] *)
Definition chapter_href (i : nat) : str :=
  lit "chapter_" ++ str_of_nat i ++ lit ".html".

(** *** The navigation detector *)

(** [process_toc_item]: the chapters it appends, the entry first and then
    its sub-entries, nothing beyond level 2. *)
Fixpoint process_toc_item (b : book) (it : toc_item) (lvl : nat) : list chapter :=
  match it with
  | TocItem h t subitems =>
      if (2 <? lvl)%nat then []
      else
        match h with
        | Some hr =>
            match get_item_with_href b hr with
            | Some content_item =>
                [ {| title := t;
                     content := extract_text_from_html (get_content content_item);
                     href := Some hr;
                     level := Some lvl |} ]
            | None => []
            end
        | None => []
        end
        ++ flat_map (fun subitem => process_toc_item b subitem (S lvl)) subitems
  end.

Definition toc_chapters (b : book) : list chapter :=
  flat_map (fun toc_item => process_toc_item b toc_item 0) (toc b).

Definition get_toc_chapters (b : book) (include_all : bool) : list chapter :=
  let chapters := toc_chapters b in
  match chapters with
  | [] =>
      if include_all
      then imap (fun i ch => {| title := title ch;
                                content := content ch;
                                href := Some (chapter_href i);
                                level := Some 0%nat |})
             (split_by_regex (extract_all_text b))
      else chapters
  | _ => chapters
  end.

(** *** The structural detector *)

(** [(chapter|book|section|part)] and [(prolog|prologue|epilogue)] *)
Definition structural_word : Regex.regex :=
  Regex.Alt (Regex.word_ci "chapter")
 (Regex.Alt (Regex.word_ci "book")
 (Regex.Alt (Regex.word_ci "section") (Regex.word_ci "part"))).

Definition framing_word : Regex.regex :=
  Regex.Alt (Regex.word_ci "prolog")
 (Regex.Alt (Regex.word_ci "prologue") (Regex.word_ci "epilogue")).

(** [re:test(., '\s*((chapter|book|section|part)\s+)|((prolog|prologue|epilogue)(\s+|$))', 'i')]:
    a search for the first alternative, or for a framing word followed by
    white space, or for a framing word at the end. *)
Definition re_test (s : str) : bool :=
  Regex.search (Regex.Cat (Regex.Star Regex.space)
                  (Regex.Cat structural_word (Regex.plus Regex.space))) s
  || Regex.search (Regex.Cat framing_word (Regex.plus Regex.space)) s
  || Regex.search_to_end framing_word s.

(** The node test of both XPath expressions of [split_by_xpath]. *)
Definition is_chapter_node (n : node) : bool :=
  ((bool_decide (tag_of n = lit "h1") || bool_decide (tag_of n = lit "h2"))
   && re_test (rendered_text n))
  || bool_decide (class_of n = Some (lit "chapter")).

(** The elements below and including [n] in document order, each with the
    siblings that follow it ([getnext()] repeated). *)
Fixpoint descendants (n : node) (following : list node) : list (node * list node) :=
  match n with
  | Element _ _ _ cs _ =>
      (n, following)
        :: (fix go (l : list node) : list (node * list node) :=
              match l with
              | [] => []
              | c :: rest => descendants c rest ++ go rest
              end) cs
  end.

Section Structural.

(** The method [text_content()] of the element objects; [None] stands for
    a call that raises. *)
Variable text_content : node -> option str.

(** The [while] loop over the following siblings; [None] when a call
    raised. *)
Fixpoint content_elements (siblings : list node) : option (list str) :=
  match siblings with
  | [] => Some []
  | next_sibling :: rest =>
      if is_chapter_node next_sibling then Some []
      else match text_content next_sibling with
           | None => None
           | Some t =>
               match content_elements rest with
               | None => None
               | Some ts => Some (t :: ts)
               end
           end
  end.

(** The [for] loop over [chapter_nodes]; an exception ends the loop and the
    handler returns the chapters appended so far. *)
Fixpoint xpath_loop (chapter_nodes : list (node * list node))
    (chapters : list chapter) : list chapter :=
  match chapter_nodes with
  | [] => chapters
  | (chapter_node, siblings) :: rest =>
      match text_content chapter_node with
      | None => chapters
      | Some t =>
          let title := strip t in
          match content_elements siblings with
          | None => chapters
          | Some elements =>
              let content := clean_text (join [LF] elements) in
              xpath_loop rest
                (if truthy title && truthy content
                 then chapters ++ [plain_chapter title content]
                 else chapters)
          end
      end
  end.

Definition split_by_xpath (html_content : html) : list chapter :=
  match etree html_content with
  | None => []
  | Some tree =>
      let chapter_nodes :=
        List.filter (fun p => is_chapter_node (fst p)) (descendants tree []) in
      xpath_loop chapter_nodes []
  end.

(** *** The two entry points *)

(** The loop shared by [get_all_chapters] and [_split_by_xpath]: the
    chapters of every document item, appended to [chapters]. *)
Definition _split_by_xpath (b : book) (chapters : list chapter) : list chapter :=
  fold_left (fun acc it => acc ++ split_by_xpath (get_content it))
    (documents b) chapters.

Definition _split_by_regex (b : book) (chapters : list chapter) : list chapter :=
  chapters ++ split_by_regex (extract_all_text b).

Definition _split_by_toc (b : book) (chapters : list chapter) : list chapter :=
  chapters ++ get_toc_chapters b false.

Definition split_into_chapters (b : book) (detection_method : str) : list chapter :=
  let chapters := [] in
  if bool_decide (detection_method = lit "xpath") then _split_by_xpath b chapters
  else if bool_decide (detection_method = lit "regex") then _split_by_regex b chapters
  else if bool_decide (detection_method = lit "toc") then _split_by_toc b chapters
  else
    let chapters := _split_by_xpath b chapters in
    let chapters := if truthy chapters then chapters else _split_by_regex b chapters in
    let chapters := if truthy chapters then chapters else _split_by_toc b chapters in
    chapters.

(** [get_all_chapters] up to line 198: the chapters of the requested
    method. *)
Definition requested_chapters (b : book) (detection_method : str) : list chapter :=
  if bool_decide (detection_method = lit "xpath") then _split_by_xpath b []
  else if bool_decide (detection_method = lit "regex")
       then split_by_regex (extract_all_text b)
  else if bool_decide (detection_method = lit "toc") then get_toc_chapters b true
  else [].

(** Lines 201-207: the other methods, tried when nothing was found. *)
Definition with_fallback (b : book) (chapters : list chapter) : list chapter :=
  if truthy chapters then chapters
  else
    let chapters := get_toc_chapters b true in
    if truthy chapters then chapters
    else split_by_regex (extract_all_text b).

(** Lines 210-214: the keys every listed chapter gets. *)
Definition fill_keys (i : nat) (ch : chapter) : chapter :=
  {| title := title ch;
     content := content ch;
     href := Some (default (chapter_href i) (href ch));
     level := Some (default 0%nat (level ch)) |}.

Definition get_all_chapters (b : book) (detection_method : str) : list chapter :=
  imap fill_keys (with_fallback b (requested_chapters b detection_method)).

End Structural.



Definition heading_nodes (tree : node) : list (node * list node) :=
  List.filter (fun p => is_chapter_node (fst p)) (descendants tree []).


(** [text_content()] as [lxml.html] elements implement it. *)
Definition html_text_content (n : node) : option str := Some (rendered_text n).

(** Both optional keys are present. *)
Definition has_keys (ch : chapter) : Prop :=
  is_Some (href ch) /\ is_Some (level ch).


End EpubHandler.

(** ** ai_handler.py: merge_summaries *)

Module AIHandler.
Import PyStr.

(** Stable sorting by a key, as [sorted(l, key=k)]: an element is put in
    front of the first element whose key is not smaller. *)
Section Sorted.
Context {A : Type} (key : A -> N).

Definition key_le (a b : A) : Prop := key a <= key b.

Fixpoint insert_by (x : A) (l : list A) : list A :=
  match l with
  | [] => [x]
  | y :: t => if key x <=? key y then x :: l else y :: insert_by x t
  end.

Fixpoint sorted (l : list A) : list A :=
  match l with
  | [] => []
  | x :: t => insert_by x (sorted t)
  end.

End Sorted.

(** The outcome of [open(path, 'r', encoding='utf-8')] followed by
    [f.read()] at merge time: the text, or the message of the exception. *)
Inductive read_result : Type :=
| ReadOk (content : str)
| ReadError (message : str).

(** List objects by identity. *)
Abbreviation heap := (gmap positive (list str)).

(** "# " U+5168 U+4E66 U+603B U+89C8 and two line feeds *)
Definition overview_heading : str :=
  lit "# " ++ [0x5168; 0x4E66; 0x603B; 0x89C8] ++ [LF; LF].

(** "## " U+76EE U+5F55 and two line feeds *)
Definition index_heading : str :=
  lit "## " ++ [0x76EE; 0x5F55] ++ [LF; LF].

(** U+8BFB U+53D6 U+603B U+7ED3 U+5185 U+5BB9 U+5931 U+8D25 ": " *)
Definition read_failed : str :=
  [0x8BFB; 0x53D6; 0x603B; 0x7ED3; 0x5185; 0x5BB9; 0x5931; 0x8D25] ++ lit ": ".

(** [os.path.basename(f).replace('_summary.md', '').replace('_', ' ')] *)
Definition chapter_title (summary_file : str) : str :=
  replace [USCORE] [SP] (replace (lit "_summary.md") [] (basename summary_file)).

(** [line.strip().startswith('#')] *)
Definition is_heading_line (line : str) : bool :=
  startswith [HASH] (strip line).

(** What the body of the [try] writes for a file that was read. *)
Definition body_text (content : str) : str :=
  let lines := split_char LF content in
  let content_lines := List.filter (fun line => negb (is_heading_line line)) lines in
  strip (join [LF] content_lines) ++ [LF; LF].

Section Merge.

(** The decimal value of the characters [\d] matches and [int] reads (the
    decimal digits of the Unicode database). *)
Variable decimal_value : N -> option N.

(** The file system as [merge_summaries] reads it. *)
Variable read_file : str -> read_result.

(** The digits of the numeral that starts the string. *)
Fixpoint digits_prefix (s : str) : list N :=
  match s with
  | [] => []
  | c :: t =>
      match decimal_value c with
      | Some d => d :: digits_prefix t
      | None => []
      end
  end.

(** [re.search(r'(\d+)', s)]: the digits of the first numeral. *)
Fixpoint first_numeral (s : str) : option (list N) :=
  match s with
  | [] => None
  | c :: t =>
      match decimal_value c with
      | Some _ => Some (digits_prefix s)
      | None => first_numeral t
      end
  end.

(** [int] of a string of digits. *)
Definition int_of_digits (ds : list N) : N :=
  fold_left (fun acc d => 10 * acc + d) ds 0.

Definition sort_key (file_path : str) : N :=
  let file_name := basename file_path in
  match first_numeral file_name with
  | Some ds => int_of_digits ds
  | None => 0
  end.

Definition has_numbering (summary_files : list str) : bool :=
  existsb (fun f => bool_decide (is_Some (first_numeral (basename f)))) summary_files.

(** Lines 117-131 on values: the order in which the files are emitted. *)
Definition resolved_order (summary_files : list str) : list str :=
  if has_numbering summary_files then sorted sort_key summary_files
  else summary_files.

(** Lines 117-131 on list objects: [sorted] makes a new list, the other
    branch binds [sorted_files] to the list that was passed in. *)
Definition sorted_files (h : heap) (summary_files : positive) (files : list str)
    : heap * positive :=
  if has_numbering files then
    let fresh_list := fresh (dom h) in
    (<[fresh_list := sorted sort_key files]> h, fresh_list)
  else (h, summary_files).

(** Line 141: one entry of the index. *)
Definition index_entry (i : nat) (summary_file : str) : str :=
  str_of_nat (i + 1) ++ lit ". [" ++ chapter_title summary_file ++ lit "](#"
    ++ str_of_nat (i + 1) ++ lit ")" ++ [LF].

(** Lines 147-164: what one iteration of the second loop writes. *)
Definition section (i : nat) (summary_file : str) : str :=
  match read_file summary_file with
  | ReadOk content =>
      lit "## " ++ str_of_nat (i + 1) ++ lit ". " ++ chapter_title summary_file
        ++ [LF; LF] ++ body_text content
  | ReadError e =>
      lit "## " ++ str_of_nat (i + 1) ++ lit ". " ++ basename summary_file
        ++ [LF; LF] ++ read_failed ++ e ++ [LF; LF]
  end.

(** Everything written to [merged_file]. *)
Definition merged_text (files : list str) : str :=
  overview_heading ++ index_heading
    ++ concat (imap index_entry files) ++ [LF]
    ++ concat (imap section files).

(** [merge_summaries]: the heap after the call and the text written to
    [output_path]; the call returns [True]. [None] only when
    [summary_files] is not a list of the heap. *)
Definition merge_summaries (h : heap) (summary_files : positive)
    : option (heap * str) :=
  match h !! summary_files with
  | None => None
  | Some files =>
      let '(h', sorted_ref) := sorted_files h summary_files files in
      match h' !! sorted_ref with
      | None => None
      | Some order => Some (h', merged_text order)
      end
  end.

End Merge.

(** The table of decimal digits restricted to ASCII. *)
Definition ascii_decimal (c : N) : option N :=
  if (48 <=? c) && (c <=? 57) then Some (c - 48) else None.

(** The body the specification words: the stored text without its leading
    heading lines. *)
Fixpoint drop_leading_headings (lines : list str) : list str :=
  match lines with
  | [] => []
  | l :: rest => if is_heading_line l then drop_leading_headings rest else lines
  end.

Definition body_without_leading_headings (content : str) : str :=
  join [LF] (drop_leading_headings (split_char LF content)).

End AIHandler.

(** ** Concrete inputs *)

Module Examples.
Import PyStr EpubHandler.



(** A book without items and without table of contents. *)
Definition empty_book : book := {| get_items := []; toc := [] |}.

(** A book of one document, [<p>Chapter 1</p>] and [<p>body</p>] on two
    lines, without table of contents. *)
Definition one_document : node :=
  Element (lit "[document]") None []
    [Element (lit "p") None (lit "Chapter 1") [] [LF];
     Element (lit "p") None (lit "body") [] []] [].

Definition one_chapter_book : book :=
  {| get_items := [ {| is_document := true;
                       get_name := lit "ch1.xhtml";
                       get_content := {| soup := one_document;
                                         etree := Some one_document |} |} ];
     toc := [] |}.

(** The artifacts of the specification's ordering example and a file
    system in which every artifact holds a title line and one body line. *)
Definition numbered_files : list str := [lit "ch1"; lit "ch3"; lit "ch2"].

Definition unnumbered_files : list str := [lit "intro"; lit "body"; lit "afterword"].

Definition plain_files (f : str) : AIHandler.read_result :=
  AIHandler.ReadOk (lit "# title" ++ [LF; LF] ++ lit "summary").

(** A stored summary with a heading line after body text, and one with a
    title line only. *)
Definition summary_with_subheading : str :=
  lit "# T" ++ [LF; LF] ++ lit "body" ++ [LF] ++ lit "## sub" ++ [LF] ++ lit "more".

Definition summary_with_title : str := lit "# T" ++ [LF; LF] ++ lit "body".

(** A file system in which [ch3] cannot be read. *)
Definition ch3_unreadable (f : str) : AIHandler.read_result :=
  if bool_decide (f = lit "ch3") then AIHandler.ReadError (lit "denied")
  else AIHandler.ReadOk summary_with_title.

End Examples.

(** ** Further notions used to describe the code *)

Module Notions.
Import PyStr.

(** The characters of a text that are not white space, in order. *)
Definition visible (s : str) : str :=
  List.filter (fun c => negb (is_space c)) s.

(** A table-of-contents entry cut below [depth] further levels. *)
Fixpoint prune_toc (depth : nat) (it : EpubHandler.toc_item) : EpubHandler.toc_item :=
  match it with
  | EpubHandler.TocItem h t subitems =>
      match depth with
      | O => EpubHandler.TocItem h t []
      | S d => EpubHandler.TocItem h t (map (prune_toc d) subitems)
      end
  end.

(** What the navigation detector guarantees for a chapter of book [b]. *)
Definition toc_chapter_ok (b : EpubHandler.book) (ch : EpubHandler.chapter) : Prop :=
  exists hr lvl it,
    EpubHandler.href ch = Some hr
    /\ EpubHandler.level ch = Some lvl
    /\ (lvl <= 2)%nat
    /\ EpubHandler.get_item_with_href b hr = Some it
    /\ EpubHandler.content ch =
       EpubHandler.extract_text_from_html (EpubHandler.get_content it).

(** What the structural detector guarantees for a chapter. *)
Definition xpath_chapter_ok (ch : EpubHandler.chapter) : Prop :=
  EpubHandler.title ch <> [] /\ EpubHandler.content ch <> []
  /\ strip (EpubHandler.title ch) = EpubHandler.title ch
  /\ EpubHandler.clean_text (EpubHandler.content ch) = EpubHandler.content ch.

(** No line of the text is a heading line of the merge. *)
Definition heading_free (text : str) : Prop :=
  Forall (fun l => AIHandler.is_heading_line l = false) (split_char LF text).

(** Put characters in front of the first part of a split. *)
Definition add_front (pre : str) (parts : list str) : list str :=
  match parts with
  | [] => [pre]
  | p :: ps => (pre ++ p) :: ps
  end.

End Notions.

(** ** Paths and files *)

Module Files.
Import PyStr.

Definition DOT : N := 46.

(** [os.path.join(a, b)] with [/] as separator. *)
Definition path_join (a b : str) : str :=
  if startswith [SLASH] b then b
  else match a with
       | [] => b
       | _ => if bool_decide (last a = Some SLASH) then a ++ b
              else a ++ SLASH :: b
       end.

(** The text before and from the last dot of a name. *)
Fixpoint last_dot (s : str) : option (str * str) :=
  match s with
  | [] => None
  | c :: t =>
      match last_dot t with
      | Some (before, ext) => Some (c :: before, ext)
      | None => if c =? DOT then Some ([], s) else None
      end
  end.

(** [os.path.splitext(name)[0]] for a name without separator: the name is
    cut at its last dot unless only dots precede that dot. *)
Definition splitext_root (name : str) : str :=
  match last_dot name with
  | Some (before, _) =>
      if existsb (fun c => negb (c =? DOT)) before then before else name
  | None => name
  end.

(** The files, by path, with their text. *)
Abbreviation files := (gmap (list N) (list N)).

End Files.

(** ** epub_handler.py: save_chapters_to_md *)

Module Storage.
Import PyStr EpubHandler Files.

(** The characters of the class of the substitution: less-than,
    greater-than, colon, double quote, slash, backslash, bar, question
    mark and asterisk. *)
Definition illegal_chars : list N := [60; 62; 58; 34; 47; 92; 124; 63; 42].

Definition is_illegal (c : N) : bool := existsb (N.eqb c) illegal_chars.

(** [re.sub] of that class by an underscore in [chapter['title']]. *)
Definition safe_title (t : str) : str :=
  map (fun c => if is_illegal c then USCORE else c) t.

(** [os.path.join(output_dir, f"{safe_title}.md")] *)
Definition md_path (output_dir : str) (ch : chapter) : str :=
  path_join output_dir (safe_title (title ch) ++ lit ".md").


Section Save.

(** Whether [open(path, 'w')] succeeds; when it does not, the exception
    leaves [save_chapters_to_md]. *)
Variable writable : str -> bool.



End Save.

End Storage.

(** ** ai_handler.py: generate_summary *)

Module Summarizer.
Import PyStr.

(** What one pass through the [try] of [generate_summary] gives: the
    content of the first choice of a response with status 200, or the
    message of the exception raised. *)
Inductive api_outcome : Type :=
| ApiOk (content : str)
| ApiError (message : str).

(** What the program does towards the service and the clock. *)
Inductive event : Type :=
| Request (number : nat)
| Sleep (seconds : nat).

(** How [generate_summary] ends: it returns the summary, it returns
    [None], or it raises. *)
Inductive summary_result : Type :=
| Summary (text : str)
| NoSummary
| Failed (message : str).

(** U+751F U+6210 U+603B U+7ED3 U+5931 U+8D25 ": " *)
Definition generate_failed : str :=
  [0x751F; 0x6210; 0x603B; 0x7ED3; 0x5931; 0x8D25] ++ lit ": ".

Section Generate.

(** The outcome of each request the program makes, numbered from 0 in the
    order they are made. *)
Variable request : nat -> api_outcome.

(** The [for] loop of [generate_summary] from pass [retry] on, with
    [passes] passes left; [made] requests were made before the call. *)
Fixpoint generate_loop (made max_retries retry passes : nat)
    : summary_result * list event :=
  match passes with
  | O => (NoSummary, [])
  | S passes' =>
      match request (made + retry) with
      | ApiOk content => (Summary (strip content), [Request (made + retry)])
      | ApiError e =>
          if (retry <? max_retries - 1)%nat
          then let '(r, events) := generate_loop made max_retries (S retry) passes' in
               (r, Request (made + retry) :: Sleep (2 ^ retry) :: events)
          else (Failed (generate_failed ++ e), [Request (made + retry)])
      end
  end.

Definition generate_summary (made max_retries : nat) : summary_result * list event :=
  generate_loop made max_retries 0 max_retries.

End Generate.

(** The seconds slept and the requests made in a list of events. *)
Fixpoint slept (events : list event) : nat :=
  match events with
  | [] => 0%nat
  | Sleep n :: rest => (n + slept rest)%nat
  | Request _ :: rest => slept rest
  end.

Fixpoint requests (events : list event) : list nat :=
  match events with
  | [] => []
  | Request k :: rest => k :: requests rest
  | Sleep _ :: rest => requests rest
  end.

(** The events of [n] failed passes from pass [retry] on: a request and
    a sleep of [2 ** retry] seconds each. *)
Definition failed_passes (made retry n : nat) : list event :=
  flat_map (fun j => [Request (made + j); Sleep (2 ^ j)]) (seq retry n).

End Summarizer.

(** ** ai_handler.py: summarize_file and summarize_files *)

Module Batch.
Import PyStr Files Summarizer.




(** The output path [summarize_files] gives a file. *)
Definition output_path_of (output_dir file_path : str) : str :=
  let base_name := basename file_path in
  path_join output_dir (splitext_root base_name ++ lit "_summary.md").





Section Batch.

Variable request : nat -> api_outcome.

(** Whether [open(path, 'w')] succeeds, and the messages of the
    exceptions of a failed [open] for reading, of a failed [open] for
    writing and of [write(None)]. *)
Variable writable : str -> bool.
Variable read_error : str -> str.
Variable write_error : str -> str.
Variable type_error : str.




End Batch.



End Batch.

(** ** Further concrete inputs *)

Module Inputs.
Import PyStr.

(** Artifacts of a book with front and back matter around numbered
    chapters, in reading order but for the two chapters. *)
Definition mixed_files : list str :=
  [lit "intro"; lit "ch2"; lit "afterword"; lit "ch1"].

(** Artifacts already in ascending order of their numerals. *)
Definition ascending_files : list str := [lit "ch1"; lit "ch2"; lit "ch10"].


(** A service that always fails. *)
Definition always_down (k : nat) : Summarizer.api_outcome :=
  Summarizer.ApiError (lit "down").


(** Two chapter files, the second of which is absent. *)
Definition chapter_files : Files.files :=
  {[ lit "out/ch1.md" := lit "# ch1" ++ [LF; LF] ++ lit "text" ]}.

Definition chapter_file_list : list str := [lit "out/ch1.md"; lit "out/ch2.md"].

(** A service that answers at once. *)
Definition always_up (k : nat) : Summarizer.api_outcome :=
  Summarizer.ApiOk (lit "a summary").

End Inputs.

(** ** main.py: the choice of the detection method *)

Module Main.
Import PyStr EpubHandler.

(** [detection_methods.get(self.detection_method, 'xpath')] of
    [WorkerThread.run], with the keys 1, 2 and 3. *)
Definition worker_method_name (detection_method : Z) : str :=
  if (detection_method =? 1)%Z then lit "xpath"
  else if (detection_method =? 2)%Z then lit "regex"
  else if (detection_method =? 3)%Z then lit "toc"
  else lit "xpath".

(** [detection_methods.get(detection_method, 'toc')] of the start handler,
    which opens the chapter selection dialog. *)
Definition dialog_method_name (detection_method : Z) : str :=
  if (detection_method =? 1)%Z then lit "xpath"
  else if (detection_method =? 2)%Z then lit "regex"
  else if (detection_method =? 3)%Z then lit "toc"
  else lit "toc".

(** Step 2 of [WorkerThread.run]: the chapters the user selected, or else
    the chapters of the chosen method. *)
Definition worker_chapters (text_content : node -> option str) (b : book)
    (selected_chapters : list chapter) (detection_method : Z) : list chapter :=
  if truthy selected_chapters then selected_chapters
  else split_into_chapters text_content b (worker_method_name detection_method).

End Main.

(** ** Titles on their way to the merged document *)

Module Titles.
Import PyStr.

(** [old in s] for strings. *)
Fixpoint contains (old s : str) : bool :=
  startswith old s
  || match s with
     | [] => false
     | _ :: t => contains old t
     end.

(** The title as the index of the merged document shows it: the
    characters that are replaced in file names, and underscores, are
    spaces. *)
Definition shown_title (t : str) : str :=
  map (fun c => if Storage.is_illegal c || (c =? USCORE) then SP else c) t.

(** ASCII letters in upper and in lower case. *)
Definition ascii_upper (c : N) : N :=
  if (97 <=? c) && (c <=? 122) then c - 32 else c.

Definition ascii_lower (c : N) : N :=
  if (65 <=? c) && (c <=? 90) then c + 32 else c.

Definition is_ascii_letter (c : N) : bool :=
  ((65 <=? c) && (c <=? 90)) || ((97 <=? c) && (c <=? 122)).

(** Every character class of the expression holds [f c] exactly when it
    holds [c]. *)
Fixpoint respects (f : N -> N) (r : Regex.regex) : Prop :=
  match r with
  | Regex.Chr p => forall c, p (f c) = p c
  | Regex.Cat r1 r2 => respects f r1 /\ respects f r2
  | Regex.Alt r1 r2 => respects f r1 /\ respects f r2
  | Regex.Star r1 => respects f r1
  | _ => True
  end.

End Titles.

(** * Properties *)

Import PyStr.

(** ** Facts about the string primitives *)

Section StringFacts.

Implicit Types (s t : str) (c : N).

Lemma linebreak_is_space c : is_linebreak c = true -> is_space c = true.
Proof.
  unfold is_linebreak, is_space.
  rewrite !orb_true_iff, !andb_true_iff, !N.leb_le, !N.eqb_eq. lia.
Qed.

Lemma lstrip_suffix s : lstrip s `suffix_of` s.
Proof.
  induction s as [|c t IH]; simpl; [done|].
  destruct (is_space c); [by apply suffix_cons_r | done].
Qed.

Lemma rstrip_prefix s : rstrip s `prefix_of` s.
Proof.
  induction s as [|c t IH]; simpl; [done|].
  destruct (rstrip t) as [|d r] eqn:E.
  - destruct (is_space c); [apply prefix_nil | apply prefix_cons, prefix_nil].
  - by apply prefix_cons.
Qed.

Lemma no_linebreak_lstrip s : no_linebreak s -> no_linebreak (lstrip s).
Proof.
  intros H. destruct (lstrip_suffix s) as [k Hk].
  unfold no_linebreak in *. rewrite Hk in H. by apply Forall_app in H as [_ ?].
Qed.

Lemma no_linebreak_rstrip s : no_linebreak s -> no_linebreak (rstrip s).
Proof.
  intros H. destruct (rstrip_prefix s) as [k Hk].
  unfold no_linebreak in *. rewrite Hk in H. by apply Forall_app in H as [? _].
Qed.

Lemma no_linebreak_strip s : no_linebreak s -> no_linebreak (strip s).
Proof. intros. by apply no_linebreak_rstrip, no_linebreak_lstrip. Qed.

Lemma lstrip_head s c t : lstrip s = c :: t -> is_space c = false.
Proof.
  induction s as [|d u IH]; simpl; [done|].
  destruct (is_space d) eqn:E; [done|]. by intros [= <- _].
Qed.

Lemma lstrip_id c t : is_space c = false -> lstrip (c :: t) = c :: t.
Proof. intros H. simpl. by rewrite H. Qed.

Lemma rstrip_head c t : is_space c = false -> exists r, rstrip (c :: t) = c :: r.
Proof.
  intros H. simpl. destruct (rstrip t); rewrite ?H; eauto.
Qed.

Lemma rstrip_idemp s : rstrip (rstrip s) = rstrip s.
Proof.
  induction s as [|c t IH]; simpl; [done|].
  destruct (rstrip t) as [|d r] eqn:E.
  - destruct (is_space c) eqn:Ec; simpl; [done | by rewrite Ec].
  - simpl in *. by rewrite IH.
Qed.

Lemma strip_idemp s : strip (strip s) = strip s.
Proof.
  unfold strip. destruct (lstrip s) as [|c t] eqn:E; [done|].
  apply lstrip_head in E. destruct (rstrip_head c t E) as [r Hr].
  rewrite Hr, lstrip_id by done. rewrite <- Hr. apply rstrip_idemp.
Qed.

End StringFacts.

Section SplitFacts.

Implicit Types (s t : str) (c : N).

(** Induction two characters at a time, as [split_2sp] and [splitlines]
    recurse. *)
Lemma str_ind2 (P : str -> Prop) :
  P [] -> (forall c, P [c]) ->
  (forall c c2 t, P t -> P (c2 :: t) -> P (c :: c2 :: t)) ->
  forall s, P s.
Proof.
  intros H0 H1 H2 s. cut (P s /\ forall c, P (c :: s)); [tauto|].
  induction s as [|c2 t [IHa IHb]]; split; auto.
Qed.

Lemma split_2sp_cons2 c c2 t :
  split_2sp (c :: c2 :: t) =
  if (c =? SP) && (c2 =? SP) then [] :: split_2sp t
  else push_front c (split_2sp (c2 :: t)).
Proof. reflexivity. Qed.

Lemma split_2sp_head c t : heads_with c (split_2sp (c :: t)).
Proof.
  destruct t as [|c2 t]; [done|]. rewrite split_2sp_cons2.
  destruct ((c =? SP) && (c2 =? SP)); [done|].
  by destruct (split_2sp (c2 :: t)).
Qed.

Lemma split_2sp_parts s : Forall (fun p => has_2sp p = false) (split_2sp s).
Proof.
  induction s as [| c | c c2 t IH1 IH2] using str_ind2.
  - by repeat constructor.
  - by repeat constructor.
  - rewrite split_2sp_cons2. destruct ((c =? SP) && (c2 =? SP)) eqn:E.
    + by constructor.
    + pose proof (split_2sp_head c2 t) as Hh.
      destruct (split_2sp (c2 :: t)) as [|p ps]; [by repeat constructor|].
      apply Forall_cons in IH2 as [Hp Hps]. constructor; [|done].
      destruct p as [|d p']; [done|]. simpl in Hh. subst d.
      simpl in *. by rewrite E, Hp.
Qed.

Lemma split_2sp_single s : has_2sp s = false -> split_2sp s = [s].
Proof.
  induction s as [| c | c c2 t IH1 IH2] using str_ind2; [done..|].
  intros H. simpl in H. apply orb_false_iff in H as [E H].
  rewrite split_2sp_cons2, E, IH2; done.
Qed.

Lemma has_2sp_app_r k s : has_2sp (k ++ s) = false -> has_2sp s = false.
Proof.
  induction k as [|c k IH]; simpl; [done|].
  destruct (k ++ s) eqn:E; [|rewrite orb_false_iff; tauto].
  apply app_eq_nil in E as [_ ->]. done.
Qed.

Lemma has_2sp_app_l s k : has_2sp (s ++ k) = false -> has_2sp s = false.
Proof.
  induction s as [| c | c c2 t IH1 IH2] using str_ind2; [done..|].
  simpl. rewrite !orb_false_iff. intros [E H]. split; [done|].
  apply IH2. done.
Qed.

Lemma has_2sp_strip s : has_2sp s = false -> has_2sp (strip s) = false.
Proof.
  intros H. unfold strip.
  destruct (lstrip_suffix s) as [k Hk]. rewrite Hk in H.
  apply has_2sp_app_r in H.
  destruct (rstrip_prefix (lstrip s)) as [k' Hk']. rewrite Hk' in H.
  by apply has_2sp_app_l in H.
Qed.

Lemma push_front_Forall (P : str -> Prop) c parts :
  (forall p, P p -> P (c :: p)) -> P [c] ->
  Forall P parts -> Forall P (push_front c parts).
Proof.
  intros Hc H1 [|p ps Hp Hps]; simpl; repeat constructor; auto.
Qed.

Lemma split_2sp_no_linebreak s :
  no_linebreak s -> Forall no_linebreak (split_2sp s).
Proof.
  induction s as [| c | c c2 t IH1 IH2] using str_ind2; intros H.
  - by repeat constructor.
  - simpl. constructor; [exact H | constructor].
  - rewrite split_2sp_cons2.
    apply Forall_cons in H as [Hc H]. pose proof H as H'.
    apply Forall_cons in H' as [Hc2 Ht].
    destruct ((c =? SP) && (c2 =? SP)).
    + constructor; [constructor | auto].
    + apply push_front_Forall; auto.
      * intros p Hp. by constructor.
      * by repeat constructor.
Qed.

Lemma splitlines_cons2 c c2 t :
  splitlines (c :: c2 :: t) =
  if is_linebreak c then
    [] :: (if (c =? CR) && (c2 =? LF) then splitlines t
           else splitlines (c2 :: t))
  else push_front c (splitlines (c2 :: t)).
Proof. reflexivity. Qed.

Lemma splitlines_no_linebreak s : Forall no_linebreak (splitlines s).
Proof.
  induction s as [| c | c c2 t IH1 IH2] using str_ind2.
  - constructor.
  - simpl. destruct (is_linebreak c) eqn:E; by repeat constructor.
  - rewrite splitlines_cons2. destruct (is_linebreak c) eqn:E.
    + constructor; [constructor|]. by destruct ((c =? CR) && (c2 =? LF)).
    + apply push_front_Forall; auto.
      * intros p Hp. by constructor.
      * by repeat constructor.
Qed.

(** A line without boundaries followed by a line feed is split off whole. *)
Lemma splitlines_line p s :
  no_linebreak p -> splitlines (p ++ LF :: s) = p :: splitlines s.
Proof.
  induction p as [|c p IH]; intros H.
  - by destruct s.
  - apply Forall_cons in H as [Hc H]. simpl. rewrite Hc.
    change (splitlines (p ++ LF :: s)) with (splitlines (p ++ LF :: s)).
    by rewrite IH.
Qed.

Lemma splitlines_last p :
  p <> [] -> no_linebreak p -> splitlines p = [p].
Proof.
  induction p as [|c p IH]; intros Hne H; [done|].
  apply Forall_cons in H as [Hc H]. simpl. rewrite Hc.
  destruct p as [|d p]; [done|]. by rewrite IH.
Qed.

Lemma splitlines_join (parts : list str) :
  Forall (fun p => p <> [] /\ no_linebreak p) parts ->
  splitlines (join [LF] parts) = parts.
Proof.
  induction parts as [|p rest IH]; intros H; [done|].
  apply Forall_cons in H as [[Hne Hp] H].
  destruct rest as [|q rest].
  - simpl. by apply splitlines_last.
  - change (join [LF] (p :: q :: rest)) with (p ++ LF :: join [LF] (q :: rest)).
    rewrite splitlines_line by done. by rewrite IH.
Qed.

End SplitFacts.

(** ** The text normalizer *)

Section Normalizer.
Import EpubHandler.

Lemma clean_text_chunks text :
  exists chunks, clean_text text = join [LF] chunks /\ Forall clean_chunk chunks.
Proof.
  eexists; split; [reflexivity|].
  apply List.Forall_forall. intros p Hp.
  apply filter_In in Hp as [Hp Hne].
  apply in_flat_map in Hp as (line & Hline & Hp).
  apply in_map_iff in Hp as (q & <- & Hq).
  apply in_map_iff in Hline as (l & <- & Hl).
  pose proof (splitlines_no_linebreak text) as Hnl.
  rewrite List.Forall_forall in Hnl. specialize (Hnl _ Hl).
  apply no_linebreak_strip in Hnl.
  pose proof (split_2sp_no_linebreak _ Hnl) as Hq1.
  pose proof (split_2sp_parts (strip l)) as Hq2.
  rewrite List.Forall_forall in Hq1, Hq2.
  repeat split.
  - by destruct (strip q).
  - by apply no_linebreak_strip, Hq1.
  - apply strip_idemp.
  - by apply has_2sp_strip, Hq2.
Qed.

Lemma clean_text_fixed chunks :
  Forall clean_chunk chunks -> clean_text (join [LF] chunks) = join [LF] chunks.
Proof.
  intros H. unfold clean_text. rewrite splitlines_join.
  2:{ eapply Forall_impl; [exact H|]. intros p (? & ? & _). done. }
  f_equal. induction H as [|p ps (Hne & Hnl & Hs & H2) _ IH]; [done|].
  simpl. rewrite Hs, split_2sp_single by done. simpl. rewrite Hs.
  destruct p; [done|]. simpl. by rewrite IH.
Qed.

Lemma split_space_runs_from_cons2 in_run c c2 t :
  split_space_runs_from in_run (c :: c2 :: t) =
  if in_run && (c =? SP) then split_space_runs_from true (c2 :: t)
  else if (c =? SP) && (c2 =? SP) then [] :: split_space_runs_from true t
  else push_front c (split_space_runs_from false (c2 :: t)).
Proof. reflexivity. Qed.

Lemma strip_space c s : is_space c = true -> strip (c :: s) = strip s.
Proof. intros H. unfold strip. simpl. by rewrite H. Qed.

Lemma phrases_push_space c parts :
  is_space c = true -> parts <> [] ->
  phrases (push_front c parts) = phrases parts.
Proof.
  intros Hc Hne. destruct parts as [|p ps]; [done|].
  unfold phrases. simpl. by rewrite strip_space.
Qed.

(** Splitting at pairs of spaces and splitting at runs of spaces give the
    same first part and the same trimmed non-empty phrases after it. *)
Lemma split_space_runs_phrases s :
  phrases (split_space_runs_from true s) = phrases (split_2sp s)
  /\ exists p l1 l2,
       split_space_runs_from false s = p :: l1
       /\ split_2sp s = p :: l2
       /\ phrases l1 = phrases l2.
Proof.
  induction s as [| c | c c2 t [IHt _] [IHa IHb]] using str_ind2.
  - split; [done|]. by exists [], [], [].
  - split; [|by exists [c], [], []].
    simpl. destruct (c =? SP) eqn:E; [|done].
    apply N.eqb_eq in E as ->. done.
  - destruct IHb as (p & l1 & l2 & E1 & E2 & Hl).
    assert (phrases (split_space_runs_from false (c :: c2 :: t))
            = phrases (split_2sp (c :: c2 :: t))
            /\ exists p l1 l2,
                 split_space_runs_from false (c :: c2 :: t) = p :: l1
                 /\ split_2sp (c :: c2 :: t) = p :: l2
                 /\ phrases l1 = phrases l2) as [Hfalse Hex].
    { rewrite split_space_runs_from_cons2, split_2sp_cons2. simpl andb.
      destruct ((c =? SP) && (c2 =? SP)).
      - split; [|by exists [], (split_space_runs_from true t), (split_2sp t)].
        unfold phrases in *. simpl. by rewrite IHt.
      - rewrite E1, E2. simpl.
        split; [|by exists (c :: p), l1, l2].
        unfold phrases in *. simpl. by rewrite Hl. }
    split; [|done].
    destruct (c =? SP) eqn:Ec.
    + apply N.eqb_eq in Ec as ->.
      rewrite split_space_runs_from_cons2, split_2sp_cons2. simpl andb.
      change (SP =? SP) with true. simpl andb.
      destruct (c2 =? SP) eqn:Ec2.
      * apply N.eqb_eq in Ec2 as ->. simpl. done.
      * rewrite phrases_push_space; [done | done | by rewrite E2].
    + rewrite <- Hfalse. rewrite !split_space_runs_from_cons2, Ec. done.
Qed.

Lemma filter_flat_map {A B} (f : A -> list B) (keep : B -> bool) l :
  List.filter keep (flat_map f l) = flat_map (fun x => List.filter keep (f x)) l.
Proof.
  induction l as [|x l IH]; simpl; [done|]. by rewrite List.filter_app, IH.
Qed.

(** The clean-up of the code computes what the specification words. *)
Lemma clean_text_normalizer_spec text : clean_text text = normalizer_spec text.
Proof.
  unfold clean_text, normalizer_spec. f_equal. rewrite filter_flat_map.
  induction (map strip (splitlines text)) as [|line lines IH]; simpl; [done|].
  rewrite IH. f_equal.
  destruct (split_space_runs_phrases line) as [_ (p & l1 & l2 & E1 & E2 & Hl)].
  unfold split_space_runs. rewrite E1, E2.
  unfold phrases in *. simpl. by rewrite Hl.
Qed.

(** C5. The text normalizer is idempotent: cleaning up text that is already
    the result of the clean-up (lines split, each line trimmed, each line
    split at double spaces into trimmed phrases, empty pieces dropped, the
    rest joined with single newlines) returns it unchanged; the same holds
    for the normalizer worded with runs of two or more spaces, which
    computes the same text. *)
Theorem clean_text_idempotent (text : str) :
  clean_text (clean_text text) = clean_text text
  /\ normalizer_spec (normalizer_spec text) = normalizer_spec text.
Proof.
  assert (clean_text (clean_text text) = clean_text text) as E.
  { destruct (clean_text_chunks text) as (chunks & -> & H).
    by apply clean_text_fixed. }
  split; [done|]. by rewrite <- !clean_text_normalizer_spec.
Qed.

End Normalizer.

(** ** Derivative matching decides language membership *)

Section RegexFacts.
Import Regex.

Implicit Types (r : regex) (s : str) (c : N).

Lemma nullable_matches r : nullable r = true <-> matches r [].
Proof.
  split.
  - induction r; simpl; intros H; try discriminate.
    + constructor.
    + apply andb_true_iff in H as [H1 H2].
      change (@nil N) with (@nil N ++ []). constructor; auto.
    + apply orb_true_iff in H as [H|H]; [apply MAltL | apply MAltR]; auto.
    + constructor.
  - intros H. remember [] as s eqn:Es.
    induction H; simpl; subst; try done.
    + apply app_eq_nil in Es as [-> ->]. by rewrite IHmatches1, IHmatches2.
    + by rewrite IHmatches.
    + rewrite IHmatches by done. apply orb_true_r.
Qed.

Lemma matches_cat r1 r2 s : matches (cat r1 r2) s <-> matches (Cat r1 r2) s.
Proof.
  destruct r1; simpl; try tauto; split; intros H.
  - inversion H.
  - inversion H; subst. match goal with X : matches Void _ |- _ => inversion X end.
  - change s with ([] ++ s). constructor; [constructor | done].
  - inversion H; subst. match goal with X : matches Eps _ |- _ => inversion X end.
    done.
Qed.

Lemma matches_alt r1 r2 s : matches (alt r1 r2) s <-> matches (Alt r1 r2) s.
Proof.
  assert (forall s', ~ matches Void s') as HV by (intros s' H; inversion H).
  assert (matches r2 s <-> matches (Alt Void r2) s) as HL.
  { split; intros H; [by apply MAltR|]. inversion H; subst; [by apply HV in H3 | done]. }
  assert (matches r1 s <-> matches (Alt r1 Void) s) as HR.
  { split; intros H; [by apply MAltL|]. inversion H; subst; [done | by apply HV in H3]. }
  destruct r1, r2; simpl; tauto.
Qed.

(** A non-empty match of [Star r] starts with a non-empty match of [r]. *)
Lemma matches_star_cons r c s :
  matches (Star r) (c :: s) ->
  exists s1 s2, s = s1 ++ s2 /\ matches r (c :: s1) /\ matches (Star r) s2.
Proof.
  intros H. remember (Star r) as r' eqn:Er. remember (c :: s) as s' eqn:Es.
  induction H; try discriminate.
  injection Er as ->. destruct s1 as [|d s1].
  - simpl in Es. auto.
  - injection Es as -> <-. eauto.
Qed.

Lemma matches_deriv r c s : matches (deriv c r) s <-> matches r (c :: s).
Proof.
  revert s. induction r as [| | p | r1 IH1 r2 IH2 | r1 IH1 r2 IH2 | r IH];
    intros s; simpl.
  - split; intros H; inversion H.
  - split; intros H; inversion H.
  - destruct (p c) eqn:E; split; intros H; inversion H; subst.
    + by constructor.
    + constructor.
    + congruence.
  - assert (matches (cat (deriv c r1) r2) s <->
            exists s1 s2, s = s1 ++ s2 /\ matches r1 (c :: s1) /\ matches r2 s2)
      as Hcat.
    { rewrite matches_cat. split.
      - intros H. inversion H; subst. apply IH1 in H2. eauto.
      - intros (s1 & s2 & -> & H1 & H2). constructor; [by apply IH1 | done]. }
    assert (matches (Cat r1 r2) (c :: s) <->
            (exists s1 s2, s = s1 ++ s2 /\ matches r1 (c :: s1) /\ matches r2 s2)
            \/ (matches r1 [] /\ matches r2 (c :: s))) as Hsplit.
    { split.
      - intros H. inversion H as [| |? ? s1 s2 H1 H2 E1 E2| | | |]; subst.
        destruct s1 as [|d s1]; simpl in E2; subst.
        + right. done.
        + injection E2 as -> <-. left. eauto.
      - intros [(s1 & s2 & -> & H1 & H2) | [H1 H2]].
        + change (c :: s1 ++ s2) with ((c :: s1) ++ s2). by constructor.
        + change (c :: s) with ([] ++ c :: s). by constructor. }
    rewrite Hsplit. destruct (nullable r1) eqn:En.
    + rewrite matches_alt. apply nullable_matches in En. split.
      * intros H. inversion H; subst; [left; by apply Hcat | right; split; [done | by apply IH2]].
      * intros [H | [_ H]]; [apply MAltL; by apply Hcat | apply MAltR; by apply IH2].
    + rewrite Hcat. split; [tauto|]. intros [H | [H _]]; [done|].
      apply nullable_matches in H. congruence.
  - rewrite matches_alt. split; intros H; inversion H; subst.
    + apply MAltL. by apply IH1.
    + apply MAltR. by apply IH2.
    + apply MAltL. by apply IH1.
    + apply MAltR. by apply IH2.
  - rewrite matches_cat. split.
    + intros H. inversion H; subst. apply IH in H2.
      change (c :: s1 ++ s2) with ((c :: s1) ++ s2). by constructor.
    + intros H. apply matches_star_cons in H as (s1 & s2 & -> & H1 & H2).
      constructor; [by apply IH | done].
Qed.

Theorem fullmatch_matches r s : fullmatch r s = true <-> matches r s.
Proof.
  revert r. induction s as [|c s IH]; intros r; simpl.
  - apply nullable_matches.
  - rewrite IH. apply matches_deriv.
Qed.

End RegexFacts.

(** ** The pattern detector *)

Section PatternDetector.
Import Regex EpubHandler.

Implicit Types (s line : str) (c : N).

Lemma lstrip_Exists s :
  Exists (fun c => is_space c = false) s ->
  exists c t, lstrip s = c :: t /\ is_space c = false.
Proof.
  induction 1 as [c t Hc | c t _ IH]; simpl.
  - rewrite Hc. eauto.
  - destruct (is_space c) eqn:E; eauto.
Qed.

Lemma strip_Exists s :
  Exists (fun c => is_space c = false) s -> strip s <> [].
Proof.
  intros H. apply lstrip_Exists in H as (c & t & Hl & Hc).
  unfold strip. rewrite Hl. by destruct (rstrip_head c t Hc) as [r ->].
Qed.

Lemma first_nonspace_matches r s :
  first_nonspace r -> matches r s ->
  exists c t, s = c :: t /\ is_space c = false.
Proof.
  revert s.
  induction r as [| | p | r1 IH1 r2 IH2 | r1 IH1 r2 IH2 | r IH]; intros s;
    simpl; try tauto.
  - intros Hp H. inversion H; subst. eauto.
  - intros Hp H. inversion H as [| |? ? s1 s2 H1 H2| | | |]; subst.
    destruct (IH1 _ Hp H1) as (c & t & -> & Hc). simpl. eauto.
  - intros [H1 H2] H. inversion H; subst; auto.
Qed.

Lemma ci_eq_nonspace a c :
  (97 <=? a) && (a <=? 122) = true -> ci_eq a c = true -> is_space c = false.
Proof.
  unfold ci_eq, tolower, is_space.
  rewrite andb_true_iff, !N.leb_le. intros [Ha1 Ha2].
  destruct ((65 <=? c) && (c <=? 90)) eqn:E1.
  { apply andb_true_iff in E1 as [?%N.leb_le ?%N.leb_le]. intros _.
    rewrite !orb_false_iff, !andb_false_iff, !N.leb_gt, !N.eqb_neq. lia. }
  destruct (c =? 304) eqn:E2.
  { apply N.eqb_eq in E2 as ->. done. }
  destruct (c =? 8490) eqn:E3.
  { apply N.eqb_eq in E3 as ->. done. }
  rewrite !orb_true_iff, !andb_true_iff, !N.eqb_eq.
  rewrite !orb_false_iff, !andb_false_iff, !N.leb_gt, !N.eqb_neq. lia.
Qed.

Lemma chapter_marker_first_nonspace : first_nonspace chapter_marker.
Proof.
  cbv [chapter_marker first_nonspace word_ci lit fold_right map
       list_ascii_of_string chr chr_ci].
  repeat split; intros c H;
    first [ apply N.eqb_eq in H as <-; reflexivity
          | eapply ci_eq_nonspace; [|exact H]; reflexivity ].
Qed.

(** A heading line holds the marker, so its trimmed form is not empty. *)
Lemma chapter_line_title line :
  is_chapter_line line = true -> strip line <> [].
Proof.
  unfold is_chapter_line, match_to_end. rewrite fullmatch_matches.
  intros H. inversion H as [| |? ? s1 s2 H1 _| | | |]; subst. clear H.
  unfold chapter_regex in H1.
  inversion H1 as [| |? ? pre s3 _ H3| | | |]; subst. clear H1.
  inversion H3 as [| |? ? m suf Hm _| | | |]; subst. clear H3.
  apply (first_nonspace_matches _ _ chapter_marker_first_nonspace) in Hm
    as (c & t & -> & Hc).
  apply strip_Exists. rewrite !Exists_app. left. right. left. by left.
Qed.

Lemma chapters_of_body lines :
  Forall (fun l => is_chapter_line l = false) lines ->
  chapters_of_lines lines = [].
Proof. induction 1 as [|l ls Hl _ IH]; simpl; [done|]. by rewrite Hl. Qed.

Lemma regex_loop lines : forall st,
  match current_chapter st with Some t => t <> [] | None => True end ->
  regex_flush (fold_left regex_step lines st) =
  match current_chapter st with
  | Some t =>
      chapters_so_far st
        ++ plain_chapter t (join [LF] (current_content st ++ body_lines lines))
        :: chapters_of_lines lines
  | None => chapters_so_far st ++ chapters_of_lines lines
  end.
Proof.
  induction lines as [|l rest IH]; intros [chs cur cont] Hcur; simpl in *.
  - unfold regex_flush. simpl. destruct cur as [[|c t]|]; simpl;
      rewrite ?app_nil_r; done.
  - unfold regex_step at 2. simpl. destruct (is_chapter_line l) eqn:El.
    + rewrite IH by (simpl; by apply chapter_line_title). simpl.
      unfold regex_flush. simpl. destruct cur as [[|c t]|]; simpl; [done| |done].
      by rewrite app_nil_r, <- app_assoc.
    + destruct cur as [[|c t]|]; simpl; [done| |].
      * rewrite IH by done. simpl. by rewrite <- app_assoc.
      * by rewrite IH.
Qed.

Lemma split_by_regex_chapters text :
  split_by_regex text = chapters_of_lines (split_char LF text).
Proof. unfold split_by_regex. by rewrite regex_loop. Qed.

(** C8. The pattern detector returns one chapter per heading line, in line
    order: the title is the trimmed heading line and the content is the
    lines up to the next heading line joined by newlines. Lines before the
    first heading are in no chapter, a heading that directly follows
    another gives a chapter with empty content, and a text without heading
    lines gives the empty list. *)
Theorem split_by_regex_spec (text : str) :
  let lines := split_char LF text in
  split_by_regex text = chapters_of_lines lines
  /\ map title (split_by_regex text) = map strip (List.filter is_chapter_line lines)
  /\ (Forall (fun l => is_chapter_line l = false) lines -> split_by_regex text = []).
Proof.
  intros lines.
  rewrite split_by_regex_chapters. fold lines. split; [done|].
  split; [|apply chapters_of_body].
  induction lines as [|l ls IH]; simpl; [done|].
  destruct (is_chapter_line l); simpl; by rewrite ?IH.
Qed.

End PatternDetector.

(** ** The structural detector *)

Section StructuralDetector.
Import EpubHandler.

Variable text_content : node -> option str.
Hypothesis text_content_rendered : forall n, text_content n = Some (rendered_text n).



End StructuralDetector.

Section StructuralClaims.
Import EpubHandler Examples.




(** When the call on the first heading node raises, the handler returns the
    empty list. *)
Lemma split_by_xpath_raises (text_content : node -> option str) html_content :
  (forall n, text_content n = None) ->
  split_by_xpath text_content html_content = [].
Proof.
  intros H. unfold split_by_xpath. destruct (etree html_content); [|done].
  destruct (List.filter _ _) as [|[hd sibs] rest]; simpl; [done|]. by rewrite H.
Qed.

End StructuralClaims.

(** ** The entry points *)

Section Orchestrator.
Import EpubHandler Examples.

Variable text_content : node -> option str.

Implicit Types (b : book) (m : str).

Lemma truthy_nil {A} (l : list A) : truthy l = false <-> l = [].
Proof. by destruct l. Qed.

Lemma truthy_cons {A} (l : list A) : truthy l = true <-> l <> [].
Proof. by destruct l. Qed.

Lemma split_into_chapters_explicit b :
  split_into_chapters text_content b (lit "xpath") = _split_by_xpath text_content b []
  /\ split_into_chapters text_content b (lit "regex") = split_by_regex (extract_all_text b)
  /\ split_into_chapters text_content b (lit "toc") = get_toc_chapters b false.
Proof. done. Qed.

(** C2. In automatic mode, that is for a method name other than [xpath],
    [regex] and [toc], the structural, the pattern and the navigation
    detector are tried in this order and the first non-empty list is
    returned as it is; when structural detection finds nothing and pattern
    detection finds something, the result is the pattern detector's result. *)
Theorem split_into_chapters_automatic b m :
  m <> lit "xpath" -> m <> lit "regex" -> m <> lit "toc" ->
  let structural := _split_by_xpath text_content b [] in
  let pattern := split_by_regex (extract_all_text b) in
  let navigation := get_toc_chapters b false in
  split_into_chapters text_content b m =
    (if truthy structural then structural
     else if truthy pattern then pattern
     else navigation)
  /\ (structural = [] -> pattern <> [] ->
      split_into_chapters text_content b m = pattern).
Proof.
  intros H1 H2 H3 structural pattern navigation.
  assert (split_into_chapters text_content b m =
          if truthy structural then structural
          else if truthy pattern then pattern else navigation) as E.
  { unfold split_into_chapters, _split_by_regex, _split_by_toc.
    rewrite !bool_decide_eq_false_2 by done.
    fold structural pattern navigation.
    destruct structural; [|done]. simpl. by destruct pattern. }
  split; [done|]. intros Hs Hp. rewrite E, Hs. simpl.
  by apply truthy_cons in Hp as ->.
Qed.

Lemma split_by_regex_no_keys text :
  Forall (fun ch => href ch = None /\ level ch = None) (split_by_regex text).
Proof.
  rewrite split_by_regex_chapters.
  induction (split_char LF text) as [|l ls IH]; simpl; [done|].
  destruct (is_chapter_line l); [by constructor | done].
Qed.

Lemma xpath_loop_no_keys chapter_nodes : forall chapters,
  Forall (fun ch => href ch = None /\ level ch = None) chapters ->
  Forall (fun ch => href ch = None /\ level ch = None)
    (xpath_loop text_content chapter_nodes chapters).
Proof.
  induction chapter_nodes as [|[n sibs] rest IH]; intros chapters H; simpl; [done|].
  destruct (text_content n); [|done].
  destruct (content_elements text_content sibs); [|done].
  apply IH. destruct (truthy _ && truthy _); [|done].
  apply Forall_app. split; [done|]. by repeat constructor.
Qed.

Lemma split_by_xpath_no_keys html_content :
  Forall (fun ch => href ch = None /\ level ch = None)
    (split_by_xpath text_content html_content).
Proof.
  unfold split_by_xpath. destruct (etree html_content); [|done].
  by apply xpath_loop_no_keys.
Qed.

Lemma fill_keys_has_keys i ch : has_keys (fill_keys i ch).
Proof. split; eexists; reflexivity. Qed.

Lemma imap_fill_keys chapters :
  Forall has_keys (imap fill_keys chapters).
Proof.
  apply Forall_forall. intros ch Hin.
  apply list_elem_of_lookup in Hin as [i Hi].
  rewrite list_lookup_imap in Hi.
  destruct (chapters !! i) as [raw|]; [|done].
  injection Hi as <-. apply fill_keys_has_keys.
Qed.

(** C4, amended. Every chapter record that the enumeration for user choice
    ([get_all_chapters]) returns has an [href], the one the detector set or
    else [chapter_<i>.html] with [i] the position of the record, and a
    [level], the one the detector set or else 0; title and content are the
    detector's. [split_into_chapters] returns the detector's records as
    they are: after an explicit [xpath] or [regex] request no record has
    either key. *)
Theorem get_all_chapters_keys b m :
  Forall has_keys (get_all_chapters text_content b m)
  /\ (forall i ch, get_all_chapters text_content b m !! i = Some ch ->
        exists raw,
          with_fallback b (requested_chapters text_content b m) !! i = Some raw
          /\ title ch = title raw /\ content ch = content raw
          /\ href ch = Some (default (chapter_href i) (href raw))
          /\ level ch = Some (default 0%nat (level raw)))
  /\ Forall (fun ch => href ch = None /\ level ch = None)
       (split_into_chapters text_content b (lit "regex"))
  /\ Forall (fun ch => href ch = None /\ level ch = None)
       (split_into_chapters text_content b (lit "xpath")).
Proof.
  split; [apply imap_fill_keys|]. split.
  { intros i ch Hi. unfold get_all_chapters in Hi.
    rewrite list_lookup_imap in Hi.
    destruct (with_fallback _ _ !! i) as [raw|]; [|done].
    injection Hi as <-. by exists raw. }
  split.
  - apply split_by_regex_no_keys.
  - change (split_into_chapters text_content b (lit "xpath"))
      with (_split_by_xpath text_content b []).
    unfold _split_by_xpath.
    assert (forall l acc,
      Forall (fun ch => href ch = None /\ level ch = None) acc ->
      Forall (fun ch => href ch = None /\ level ch = None)
        (fold_left (fun acc it => acc ++ split_by_xpath text_content (get_content it))
           l acc)) as Hfold.
    { induction l as [|it l IH]; intros acc Hacc; simpl; [done|].
      apply IH, Forall_app. split; [done | apply split_by_xpath_no_keys]. }
    by apply Hfold.
Qed.

Lemma get_toc_chapters_all_nil b :
  get_toc_chapters b true = [] <->
  toc_chapters b = [] /\ split_by_regex (extract_all_text b) = [].
Proof.
  unfold get_toc_chapters. destruct (toc_chapters b) as [|ch chs].
  - destruct (split_by_regex (extract_all_text b)); simpl.
    + done.
    + split; [done | intros [_ ?]; done].
  - split; [done | intros [? _]; done].
Qed.

(** C9, amended. When the requested method finds no chapter, the
    enumeration for user choice falls back to the navigation detector
    (with its own fall-back to pattern detection) and then to the pattern
    detector. It returns the empty list exactly when the requested method,
    the table of contents and the pattern detector all find nothing. *)
Theorem get_all_chapters_fallback b m :
  (requested_chapters text_content b m = [] ->
   get_all_chapters text_content b m =
   imap fill_keys
     (if truthy (get_toc_chapters b true) then get_toc_chapters b true
      else split_by_regex (extract_all_text b)))
  /\ (get_all_chapters text_content b m = [] <->
      requested_chapters text_content b m = []
      /\ toc_chapters b = []
      /\ split_by_regex (extract_all_text b) = []).
Proof.
  split.
  - intros E. unfold get_all_chapters, with_fallback. by rewrite E.
  - unfold get_all_chapters.
    assert (forall l : list chapter, imap fill_keys l = [] <-> l = []) as Himap.
    { intros [|? ?]; done. }
    rewrite Himap. unfold with_fallback.
    destruct (requested_chapters text_content b m) as [|ch chs]; simpl.
    2:{ split; [done | intros [? _]; done]. }
    destruct (get_toc_chapters b true) as [|ch chs] eqn:Et; simpl.
    + apply get_toc_chapters_all_nil in Et as [Ht Hr]. by rewrite Ht, Hr.
    + split; [done|]. intros (_ & Ht & Hr).
      assert (get_toc_chapters b true = []) as Et'
        by (by apply get_toc_chapters_all_nil).
      congruence.
Qed.

End Orchestrator.

Section OrchestratorExamples.
Import EpubHandler Examples.

(** C2 on the book of one document, where structural detection finds
    nothing: the automatic result is the pattern detector's. *)
Lemma split_into_chapters_automatic_witness :
  lit "auto" <> lit "xpath" /\ lit "auto" <> lit "regex" /\ lit "auto" <> lit "toc"
  /\ split_into_chapters html_text_content one_chapter_book (lit "auto") =
     split_by_regex (extract_all_text one_chapter_book).
Proof.
  assert (lit "auto" <> lit "xpath") as H1 by discriminate.
  assert (lit "auto" <> lit "regex") as H2 by discriminate.
  assert (lit "auto" <> lit "toc") as H3 by discriminate.
  split; [exact H1|]. split; [exact H2|]. split; [exact H3|].
  destruct (split_into_chapters_automatic html_text_content one_chapter_book
              (lit "auto") H1 H2 H3) as [_ H].
  apply H; [reflexivity | discriminate].
Defined.

(** C4, as stated, fails: the chapter that [split_into_chapters] returns
    for an explicit pattern request has neither [href] nor [level]. *)
Lemma split_into_chapters_without_keys :
  split_into_chapters html_text_content one_chapter_book (lit "regex") =
    [plain_chapter (lit "Chapter 1") (lit "body")]
  /\ ~ Forall has_keys
        (split_into_chapters html_text_content one_chapter_book (lit "regex")).
Proof.
  split; [reflexivity|]. intros H.
  apply Forall_cons in H as [[[h Hh] _] _]. discriminate Hh.
Qed.

(** C9, as stated, fails: for a book in which no method finds a chapter the
    enumeration returns the empty list. *)
Lemma get_all_chapters_empty :
  get_all_chapters html_text_content empty_book (lit "toc") = []
  /\ get_all_chapters html_text_content empty_book (lit "xpath") = []
  /\ get_all_chapters html_text_content empty_book (lit "regex") = [].
Proof. repeat split; reflexivity. Qed.

End OrchestratorExamples.

(** ** Ordering of the merged artifacts *)

Section StableSort.
Import AIHandler.
Context {A : Type} (key : A -> N).

Lemma insert_by_perm x l : insert_by key x l ≡ₚ x :: l.
Proof.
  induction l as [|y t IH]; simpl; [done|].
  destruct (key x <=? key y); [done|].
  rewrite IH. apply Permutation_swap.
Qed.

Lemma sorted_perm l : sorted key l ≡ₚ l.
Proof.
  induction l as [|x t IH]; simpl; [done|].
  by rewrite insert_by_perm, IH.
Qed.

Lemma insert_by_HdRel x a l :
  (key_le key) a x -> HdRel (key_le key) a l -> HdRel (key_le key) a (insert_by key x l).
Proof.
  intros Hax Hl. destruct l as [|y t]; simpl; [by constructor|].
  destruct (key x <=? key y); constructor; [done|].
  by inversion Hl.
Qed.

Lemma insert_by_Sorted x l :
  Sorted (key_le key) l -> Sorted (key_le key) (insert_by key x l).
Proof.
  induction 1 as [|y t Ht IH Hy]; simpl; [by repeat constructor|].
  destruct (key x <=? key y) eqn:E.
  - apply N.leb_le in E. by repeat constructor.
  - apply N.leb_gt in E. constructor; [done|].
    apply insert_by_HdRel; [unfold key_le; lia | done].
Qed.

Lemma sorted_Sorted l : Sorted (key_le key) (sorted key l).
Proof.
  induction l as [|x t IH]; simpl; [constructor|]. by apply insert_by_Sorted.
Qed.

Lemma sorted_StronglySorted l : StronglySorted (key_le key) (sorted key l).
Proof.
  apply Sorted_StronglySorted; [|apply sorted_Sorted].
  intros a b c. unfold key_le. lia.
Qed.

(** Stability: an element only moves past elements of a smaller key, so
    the elements of each key keep their order. *)
Lemma insert_by_stable k x l :
  List.filter (fun a => key a =? k) (insert_by key x l) =
  List.filter (fun a => key a =? k) (x :: l).
Proof.
  induction l as [|y t IH]; [done|].
  simpl insert_by. destruct (key x <=? key y) eqn:E; [done|].
  apply N.leb_gt in E. simpl in *. rewrite IH.
  destruct (key x =? k) eqn:Ex, (key y =? k) eqn:Ey; try done.
  apply N.eqb_eq in Ex, Ey. lia.
Qed.

Lemma sorted_stable k l :
  List.filter (fun a => key a =? k) (sorted key l) =
  List.filter (fun a => key a =? k) l.
Proof.
  induction l as [|x t IH]; [done|].
  simpl sorted. rewrite insert_by_stable. simpl. by rewrite IH.
Qed.

End StableSort.

Section MergeOrder.
Import AIHandler Examples.

Variable decimal_value : N -> option N.
Variable read_file : str -> read_result.

Lemma has_numbering_false files :
  has_numbering decimal_value files = false ->
  Forall (fun f => sort_key decimal_value f = 0) files.
Proof.
  unfold has_numbering. induction files as [|f fs IH]; simpl; [done|].
  intros H. apply orb_false_iff in H as [Hf H]. constructor; [|auto].
  unfold sort_key. destruct (first_numeral _ _); [|done].
  by rewrite bool_decide_eq_true_2 in Hf.
Qed.

Lemma digits_prefix_spec s :
  exists num rest,
    s = num ++ rest
    /\ Forall2 (fun c d => decimal_value c = Some d) num (digits_prefix decimal_value s)
    /\ match rest with [] => True | c :: _ => decimal_value c = None end.
Proof.
  induction s as [|c t (num & rest & E & Hnum & Hrest)]; simpl.
  - by exists [], [].
  - destruct (decimal_value c) as [d|] eqn:Ec.
    + exists (c :: num), rest. rewrite E at 1. repeat split; [|done].
      by constructor.
    + exists [], (c :: t). repeat split; [constructor | done].
Qed.

(** [first_numeral] is the leftmost, longest run of digits. *)
Lemma first_numeral_spec s ds :
  first_numeral decimal_value s = Some ds ->
  exists before num rest,
    s = before ++ num ++ rest
    /\ Forall (fun c => decimal_value c = None) before
    /\ num <> []
    /\ Forall2 (fun c d => decimal_value c = Some d) num ds
    /\ match rest with [] => True | c :: _ => decimal_value c = None end.
Proof.
  induction s as [|c t IH]; simpl; [done|].
  destruct (decimal_value c) as [d|] eqn:Ec.
  - intros [= <-]. destruct (digits_prefix_spec t) as (num & rest & E & Hnum & Hrest).
    exists [], (c :: num), rest. rewrite E at 1.
    repeat split; [constructor | done | by constructor | done].
  - intros H. destruct (IH H) as (before & num & rest & E & Hb & Hne & Hnum & Hrest).
    exists (c :: before), num, rest. rewrite E at 1.
    repeat split; [by constructor | done..].
Qed.

Lemma first_numeral_none s :
  first_numeral decimal_value s = None <->
  Forall (fun c => decimal_value c = None) s.
Proof.
  induction s as [|c t IH]; simpl; [done|].
  destruct (decimal_value c) as [d|] eqn:Ec.
  - split; [done|]. intros H. apply Forall_cons in H as [H _]. congruence.
  - rewrite IH. split; [by constructor|]. by intros [_ ?]%Forall_cons.
Qed.

Lemma first_numeral_some s :
  is_Some (first_numeral decimal_value s) <->
  Exists (fun c => is_Some (decimal_value c)) s.
Proof.
  induction s as [|c t IH]; simpl.
  - split; [by intros [? ?] | by intros ?%Exists_nil].
  - rewrite Exists_cons. destruct (decimal_value c) as [d|] eqn:Ec.
    + split; eauto.
    + rewrite IH. split; [by right | intros [[? ?]|?]; done].
Qed.

(** [has_numbering] holds when some base name holds a digit. *)
Lemma has_numbering_spec files :
  has_numbering decimal_value files = true <->
  Exists (fun f => Exists (fun c => is_Some (decimal_value c)) (basename f)) files.
Proof.
  unfold has_numbering. induction files as [|f fs IH]; simpl.
  - split; [done | by intros ?%Exists_nil].
  - rewrite orb_true_iff, Exists_cons, IH, bool_decide_eq_true.
    by rewrite first_numeral_some.
Qed.

Lemma merge_summaries_total h summary_files files :
  h !! summary_files = Some files ->
  exists h',
    merge_summaries decimal_value read_file h summary_files =
      Some (h', merged_text read_file (resolved_order decimal_value files))
    /\ h' !! summary_files = Some files
    /\ (forall k, is_Some (h !! k) -> h' !! k = h !! k)
    /\ (has_numbering decimal_value files = true ->
        h !! fresh (dom h) = None /\
        h' = <[fresh (dom h) := sorted (sort_key decimal_value) files]> h)
    /\ (has_numbering decimal_value files = false -> h' = h).
Proof.
  intros Hl. unfold merge_summaries, sorted_files, resolved_order. rewrite Hl.
  pose proof (is_fresh (dom h)) as Hfresh. rewrite not_elem_of_dom in Hfresh.
  destruct (has_numbering decimal_value files).
  - rewrite lookup_insert_eq. eexists. split; [reflexivity|].
    assert (forall k, is_Some (h !! k) ->
                      <[fresh (dom h) := sorted (sort_key decimal_value) files]> h !! k
                      = h !! k) as Hframe.
    { intros k [v Hk]. apply lookup_insert_ne. congruence. }
    split; [by rewrite Hframe|]. repeat split; done.
  - rewrite Hl. eexists. split; [reflexivity|]. repeat split; done.
Qed.

(** C1. When some base name holds a decimal numeral, the artifacts are
    emitted in the order of a stable ascending sort by the first numeral of
    each base name, a name without numeral counting as 0: the order is a
    permutation of the input, ascending in the key, and the artifacts of
    equal key keep their input order. When no base name holds a numeral the
    order is the input order. *)
Theorem merge_order h summary_files files :
  h !! summary_files = Some files ->
  let order := resolved_order decimal_value files in
  (exists h', merge_summaries decimal_value read_file h summary_files =
              Some (h', merged_text read_file order))
  /\ (has_numbering decimal_value files = true ->
      order ≡ₚ files
      /\ StronglySorted (key_le (sort_key decimal_value)) order
      /\ forall k, List.filter (fun f => sort_key decimal_value f =? k) order =
                   List.filter (fun f => sort_key decimal_value f =? k) files)
  /\ (has_numbering decimal_value files = false -> order = files)
  /\ (forall f, first_numeral decimal_value (basename f) = None ->
                sort_key decimal_value f = 0)
  /\ (has_numbering decimal_value files = true <->
      Exists (fun f => Exists (fun c => is_Some (decimal_value c)) (basename f))
        files).
Proof.
  intros Hl order. split.
  { destruct (merge_summaries_total h summary_files files Hl) as (h' & E & _).
    by exists h'. }
  unfold order, resolved_order. split; [|split; [|split]].
  - intros ->. split; [apply sorted_perm|].
    split; [apply sorted_StronglySorted | intros k; apply sorted_stable].
  - by intros ->.
  - intros f Hf. unfold sort_key. by rewrite Hf.
  - apply has_numbering_spec.
Qed.

(** C10. The list passed to [merge_summaries] is the same after the call,
    as is every other list that existed before it; a sorted order is
    stored in a list that did not exist before. *)
Theorem merge_summaries_keeps_input h summary_files files :
  h !! summary_files = Some files ->
  exists h' written,
    merge_summaries decimal_value read_file h summary_files = Some (h', written)
    /\ h' !! summary_files = Some files
    /\ (forall k, is_Some (h !! k) -> h' !! k = h !! k)
    /\ (has_numbering decimal_value files = true ->
        h !! fresh (dom h) = None /\
        h' = <[fresh (dom h) := sorted (sort_key decimal_value) files]> h)
    /\ (has_numbering decimal_value files = false -> h' = h).
Proof.
  intros Hl.
  destruct (merge_summaries_total h summary_files files Hl) as (h' & E & H).
  by exists h', (merged_text read_file (resolved_order decimal_value files)).
Qed.

(** C7. The merge completes whatever the reads give. The artifact that
    cannot be read has its section at its place in the resolved order, with
    the number of that place, its base name and the error note; every
    section is determined by its place and by the read of its own
    artifact, so the other sections are what they are when all reads
    succeed. *)
Theorem merge_read_failure h summary_files files :
  h !! summary_files = Some files ->
  let order := resolved_order decimal_value files in
  (exists h', merge_summaries decimal_value read_file h summary_files =
     Some (h', overview_heading ++ index_heading
                 ++ concat (imap index_entry order) ++ [LF]
                 ++ concat (imap (section read_file) order)))
  /\ length (imap (section read_file) order) = length files
  /\ (forall i f e, order !! i = Some f -> read_file f = ReadError e ->
        imap (section read_file) order !! i =
        Some (lit "## " ++ str_of_nat (i + 1) ++ lit ". " ++ basename f
                ++ [LF; LF] ++ read_failed ++ e ++ [LF; LF]))
  /\ (forall i f content, order !! i = Some f -> read_file f = ReadOk content ->
        imap (section read_file) order !! i =
        Some (lit "## " ++ str_of_nat (i + 1) ++ lit ". " ++ chapter_title f
                ++ [LF; LF] ++ body_text content))
  /\ (forall (other_reads : str -> read_result) i f,
        order !! i = Some f -> other_reads f = read_file f ->
        imap (section other_reads) order !! i =
        imap (section read_file) order !! i).
Proof.
  intros Hl order. split.
  { destruct (merge_summaries_total h summary_files files Hl) as (h' & E & _).
    by exists h'. }
  split.
  { rewrite length_imap. unfold order, resolved_order.
    destruct (has_numbering decimal_value files); [|done].
    by rewrite sorted_perm. }
  repeat split.
  - intros i f e Hi He. rewrite list_lookup_imap, Hi. simpl.
    unfold section. by rewrite He.
  - intros i f c Hi Hc. rewrite list_lookup_imap, Hi. simpl.
    unfold section. by rewrite Hc.
  - intros other i f Hi Ho. rewrite !list_lookup_imap, Hi. simpl.
    unfold section. by rewrite Ho.
Qed.

Lemma filter_after_leading_headings lines :
  Forall (fun l => is_heading_line l = false) (drop_leading_headings lines) ->
  List.filter (fun line => negb (is_heading_line line)) lines =
  drop_leading_headings lines.
Proof.
  induction lines as [|l rest IH]; simpl; [done|].
  destruct (is_heading_line l) eqn:E; simpl; [done|].
  intros H. apply Forall_cons in H as [_ H]. f_equal.
  clear IH E. induction H as [|x xs Hx _ IH]; simpl; [done|].
  by rewrite Hx, IH.
Qed.

(** C6, amended. For a readable artifact whose stored text has heading
    lines at its start only, the section is the heading regenerated from
    the number of its place and the display title, followed by the stored
    text without the leading heading lines, trimmed of surrounding white
    space and followed by an empty line. *)
Theorem section_body i f content :
  read_file f = ReadOk content ->
  Forall (fun l => is_heading_line l = false)
    (drop_leading_headings (split_char LF content)) ->
  section read_file i f =
  lit "## " ++ str_of_nat (i + 1) ++ lit ". " ++ chapter_title f ++ [LF; LF]
    ++ strip (body_without_leading_headings content) ++ [LF; LF].
Proof.
  intros Hr Hbody. unfold section, body_text, body_without_leading_headings.
  by rewrite Hr, filter_after_leading_headings.
Qed.

End MergeOrder.

Section MergeExamples.
Import AIHandler Examples.

(** C1 on the artifacts [ch1], [ch3], [ch2]. *)
Lemma merge_order_witness :
  ({[ 1%positive := numbered_files ]} : heap) !! 1%positive = Some numbered_files
  /\ resolved_order ascii_decimal numbered_files = [lit "ch1"; lit "ch2"; lit "ch3"]
  /\ resolved_order ascii_decimal numbered_files ≡ₚ numbered_files.
Proof.
  split; [reflexivity|]. split; [reflexivity|].
  destruct (merge_order ascii_decimal plain_files
              {[ 1%positive := numbered_files ]} 1%positive numbered_files)
    as (_ & H & _); [reflexivity|].
  apply H. reflexivity.
Defined.

(** The two orderings the specification gives as examples. *)
Example resolved_order_examples :
  resolved_order ascii_decimal numbered_files = [lit "ch1"; lit "ch2"; lit "ch3"]
  /\ resolved_order ascii_decimal unnumbered_files = unnumbered_files.
Proof. split; reflexivity. Qed.

(** C10 on the artifacts [ch1], [ch3], [ch2], which are sorted into a new
    list. *)
Lemma merge_summaries_keeps_input_witness :
  ({[ 1%positive := numbered_files ]} : heap) !! 1%positive = Some numbered_files
  /\ exists h' written,
       merge_summaries ascii_decimal plain_files
         {[ 1%positive := numbered_files ]} 1%positive = Some (h', written)
       /\ h' !! 1%positive = Some numbered_files.
Proof.
  split; [reflexivity|].
  destruct (merge_summaries_keeps_input ascii_decimal plain_files
              {[ 1%positive := numbered_files ]} 1%positive numbered_files)
    as (h' & written & E & Hl & _); [reflexivity|].
  by exists h', written.
Defined.

(** C7 with [ch3] unreadable: its section is the third and bears the
    number 3. *)
Lemma merge_read_failure_witness :
  ({[ 1%positive := numbered_files ]} : heap) !! 1%positive = Some numbered_files
  /\ imap (section ch3_unreadable) (resolved_order ascii_decimal numbered_files)
       !! 2%nat =
     Some (lit "## 3. ch3" ++ [LF; LF] ++ read_failed ++ lit "denied" ++ [LF; LF]).
Proof.
  split; [reflexivity|].
  destruct (merge_read_failure ascii_decimal ch3_unreadable
              {[ 1%positive := numbered_files ]} 1%positive numbered_files)
    as (_ & _ & H & _); [reflexivity|].
  apply (H 2%nat (lit "ch3") (lit "denied")); reflexivity.
Defined.

(** C6, as stated, fails. The emitted body is trimmed and ends with an
    empty line, so it is not the stored text less its leading heading
    lines; and a heading line that follows body text is not kept. *)
Lemma body_text_not_stored_text :
  body_text summary_with_title = lit "body" ++ [LF; LF]
  /\ body_without_leading_headings summary_with_title = [LF] ++ lit "body"
  /\ body_text summary_with_subheading = lit "body" ++ [LF] ++ lit "more" ++ [LF; LF]
  /\ body_without_leading_headings summary_with_subheading =
       [LF] ++ lit "body" ++ [LF] ++ lit "## sub" ++ [LF] ++ lit "more"
  /\ section (fun _ => ReadOk summary_with_subheading) 0 (lit "ch1_summary.md") =
       lit "## 1. ch1" ++ [LF; LF] ++ lit "body" ++ [LF] ++ lit "more" ++ [LF; LF]
  /\ section (fun _ => ReadOk summary_with_title) 0 (lit "ch1_summary.md") <>
       lit "## 1. ch1" ++ [LF; LF] ++ body_without_leading_headings summary_with_title
  /\ In (lit "## sub") (split_char LF summary_with_subheading)
  /\ ~ In (lit "## sub")
        (split_char LF
           (section (fun _ => ReadOk summary_with_subheading) 0 (lit "ch1_summary.md"))).
Proof.
  repeat split; try reflexivity.
  - discriminate.
  - vm_compute. tauto.
  - vm_compute. intros H. repeat destruct H as [H|H]; try discriminate H. exact H.
Qed.

(** The amended C6 on a summary of a title line and one body line. *)
Lemma section_body_witness :
  plain_files (lit "ch1_summary.md") = ReadOk (lit "# title" ++ [LF; LF] ++ lit "summary")
  /\ Forall (fun l => is_heading_line l = false)
       (drop_leading_headings (split_char LF (lit "# title" ++ [LF; LF] ++ lit "summary")))
  /\ section plain_files 0 (lit "ch1_summary.md") =
     lit "## 1. ch1" ++ [LF; LF] ++ lit "summary" ++ [LF; LF].
Proof.
  split; [reflexivity|].
  assert (Forall (fun l => is_heading_line l = false)
            (drop_leading_headings
               (split_char LF (lit "# title" ++ [LF; LF] ++ lit "summary")))) as Hb.
  { vm_compute. repeat constructor. }
  split; [exact Hb|].
  exact (section_body plain_files 0 (lit "ch1_summary.md") _ eq_refl Hb).
Defined.

End MergeExamples.

(** * Further properties of the code *)

(** ** Splitting and joining *)

Section SplitJoin.

Implicit Types (s t : str) (c sep : N).

Lemma split_char_nonempty sep s : split_char sep s <> [].
Proof.
  destruct s as [|c t]; simpl; [done|].
  destruct (c =? sep); [done|]. by destruct (split_char sep t).
Qed.

Lemma join_cons sep (p : str) parts :
  parts <> [] -> join [sep] (p :: parts) = p ++ sep :: join [sep] parts.
Proof. by destruct parts. Qed.



Lemma split_char_parts sep s :
  Forall (Forall (fun c => c <> sep)) (split_char sep s).
Proof.
  induction s as [|c t IH]; simpl; [by repeat constructor|].
  destruct (c =? sep) eqn:E; [by constructor|].
  apply N.eqb_neq in E.
  destruct IH as [|p ps Hp Hps]; simpl; repeat constructor; done.
Qed.

Lemma split_char_line sep (p : str) s :
  Forall (fun c => c <> sep) p ->
  split_char sep (p ++ sep :: s) = p :: split_char sep s.
Proof.
  induction 1 as [|c p Hc _ IH]; simpl.
  - by rewrite N.eqb_refl.
  - apply N.eqb_neq in Hc. by rewrite Hc, IH.
Qed.

Lemma split_char_single sep (p : str) :
  Forall (fun c => c <> sep) p -> split_char sep p = [p].
Proof.
  induction 1 as [|c p Hc _ IH]; simpl; [done|].
  apply N.eqb_neq in Hc. by rewrite Hc, IH.
Qed.

(** [sep.join(parts).split(sep) == parts] for a non-empty list of parts
    that do not hold the separator. *)
Lemma split_char_join sep (parts : list str) :
  parts <> [] -> Forall (Forall (fun c => c <> sep)) parts ->
  split_char sep (join [sep] parts) = parts.
Proof.
  induction parts as [|p rest IH]; [done|]. intros _ H.
  apply Forall_cons in H as [Hp H]. destruct rest as [|q rest].
  - simpl. by apply split_char_single.
  - rewrite join_cons by done. rewrite split_char_line by done.
    by rewrite IH.
Qed.

Lemma no_linebreak_no_LF (p : str) :
  no_linebreak p -> Forall (fun c => c <> LF) p.
Proof.
  unfold no_linebreak. intros H. eapply Forall_impl; [exact H|].
  intros c Hc ->. done.
Qed.

End SplitJoin.

(** ** What the text normalizer keeps and what it produces *)

Section NormalizerOutput.
Import EpubHandler Notions.

Implicit Types (s t text : str) (c : N).

Lemma visible_app s t : visible (s ++ t) = visible s ++ visible t.
Proof. apply List.filter_app. Qed.

Lemma visible_lstrip s : visible (lstrip s) = visible s.
Proof.
  induction s as [|c t IH]; simpl; [done|].
  destruct (is_space c) eqn:E; simpl; by rewrite ?E.
Qed.

Lemma visible_rstrip s : visible (rstrip s) = visible s.
Proof.
  induction s as [|c t IH]; simpl; [done|].
  destruct (rstrip t) as [|d r] eqn:Er.
  - simpl in IH. destruct (is_space c) eqn:E; simpl; rewrite ?E; simpl; by rewrite <- IH.
  - simpl. destruct (is_space c); simpl; by rewrite <- IH.
Qed.

Lemma visible_strip s : visible (strip s) = visible s.
Proof. unfold strip. by rewrite visible_rstrip, visible_lstrip. Qed.

Lemma concat_push_front c (parts : list str) :
  concat (push_front c parts) = c :: concat parts.
Proof. by destruct parts. Qed.

Lemma visible_splitlines s : visible (concat (splitlines s)) = visible s.
Proof.
  induction s as [| c | c c2 t IH1 IH2] using str_ind2.
  - done.
  - simpl. destruct (is_linebreak c) eqn:E; simpl.
    + by rewrite (linebreak_is_space c E).
    + done.
  - rewrite splitlines_cons2. destruct (is_linebreak c) eqn:E.
    + change (visible (c :: c2 :: t)) with
        (if negb (is_space c) then c :: visible (c2 :: t) else visible (c2 :: t)).
      rewrite (linebreak_is_space c E). simpl negb. cbv iota.
      destruct ((c =? CR) && (c2 =? LF)) eqn:E2; simpl concat.
      * apply andb_true_iff in E2 as [_ E2]. apply N.eqb_eq in E2 as ->.
        rewrite IH1. done.
      * done.
    + rewrite concat_push_front.
      change (visible (c :: c2 :: t)) with
        (if negb (is_space c) then c :: visible (c2 :: t) else visible (c2 :: t)).
      change (visible (c :: concat (splitlines (c2 :: t)))) with
        (if negb (is_space c) then c :: visible (concat (splitlines (c2 :: t)))
         else visible (concat (splitlines (c2 :: t)))).
      by rewrite IH2.
Qed.

Lemma visible_split_2sp s : visible (concat (split_2sp s)) = visible s.
Proof.
  induction s as [| c | c c2 t IH1 IH2] using str_ind2; [done|done|].
  rewrite split_2sp_cons2. destruct ((c =? SP) && (c2 =? SP)) eqn:E.
  - apply andb_true_iff in E as [->%N.eqb_eq ->%N.eqb_eq]. simpl concat.
    by rewrite IH1.
  - rewrite concat_push_front.
    change (visible (c :: c2 :: t)) with
      (if negb (is_space c) then c :: visible (c2 :: t) else visible (c2 :: t)).
    change (visible (c :: concat (split_2sp (c2 :: t)))) with
      (if negb (is_space c) then c :: visible (concat (split_2sp (c2 :: t)))
       else visible (concat (split_2sp (c2 :: t)))).
    by rewrite IH2.
Qed.

Lemma visible_concat_map_strip (parts : list str) :
  visible (concat (map strip parts)) = visible (concat parts).
Proof.
  induction parts as [|p ps IH]; simpl; [done|].
  by rewrite !visible_app, visible_strip, IH.
Qed.

Lemma concat_filter_truthy (parts : list str) :
  concat (List.filter truthy parts) = concat parts.
Proof.
  induction parts as [|p ps IH]; simpl; [done|].
  destruct p; simpl; by rewrite IH.
Qed.

Lemma visible_join_LF (parts : list str) :
  visible (join [LF] parts) = visible (concat parts).
Proof.
  induction parts as [|p ps IH]; [done|].
  destruct ps as [|q ps]; [simpl; by rewrite app_nil_r|].
  rewrite join_cons by done.
  change (concat (p :: q :: ps)) with (p ++ concat (q :: ps)).
  rewrite !visible_app. f_equal.
  change (visible (LF :: join [LF] (q :: ps))) with (visible (join [LF] (q :: ps))).
  exact IH.
Qed.

Lemma visible_nil s : visible s = [] <-> Forall (fun c => is_space c = true) s.
Proof.
  induction s as [|c t IH]; simpl; [done|].
  destruct (is_space c) eqn:E; simpl.
  - rewrite IH. split; [by constructor | by intros [_ ?]%Forall_cons].
  - split; [done|]. intros [? _]%Forall_cons. congruence.
Qed.

Lemma clean_text_visible text : visible (clean_text text) = visible text.
Proof.
  unfold clean_text.
  rewrite visible_join_LF, concat_filter_truthy.
  rewrite <- (visible_splitlines text).
  induction (splitlines text) as [|line lines IH]; simpl; [done|].
  rewrite concat_app, !visible_app, IH. f_equal.
  by rewrite visible_concat_map_strip, visible_split_2sp, visible_strip.
Qed.

Lemma stripped_head (p : str) c t :
  strip p = p -> p = c :: t -> is_space c = false.
Proof.
  intros Hs ->. unfold strip in Hs.
  destruct (lstrip (c :: t)) as [|d u] eqn:El.
  - simpl in Hs. done.
  - pose proof (lstrip_head _ _ _ El) as Hd.
    destruct (rstrip_head d u Hd) as [r Hr]. rewrite Hr in Hs.
    by injection Hs as <- _.
Qed.

(** X1. The normalizer only removes or replaces white space: the
    characters of the text that are not white space are all kept, in
    their order; and the result is empty exactly when the text holds
    white space only. *)
Theorem clean_text_keeps_visible (text : str) :
  visible (clean_text text) = visible text
  /\ (clean_text text = [] <-> Forall (fun c => is_space c = true) text).
Proof.
  split; [apply clean_text_visible|]. rewrite <- visible_nil, <- clean_text_visible.
  split; [by intros ->|]. intros Hv.
  destruct (clean_text_chunks text) as (chunks & E & H). rewrite E in *.
  destruct H as [|p ps (Hne & _ & Hs & _) _]; [done|].
  destruct p as [|c t]; [done|].
  pose proof (stripped_head _ c t Hs eq_refl) as Hc.
  rewrite visible_join_LF in Hv. simpl in Hv. rewrite Hc in Hv. done.
Qed.

(** X2. Every line of normalized text is non-empty, has no white space at
    either end, holds no two adjacent spaces and no line boundary
    character; this holds for the lines [splitlines] gives and for those
    [split('\n')] gives when the text is not empty. *)
Theorem clean_text_lines (text : str) :
  Forall clean_chunk (splitlines (clean_text text))
  /\ (clean_text text <> [] ->
      split_char LF (clean_text text) = splitlines (clean_text text)).
Proof.
  destruct (clean_text_chunks text) as (chunks & E & H). rewrite E.
  assert (splitlines (join [LF] chunks) = chunks) as Hl.
  { apply splitlines_join. eapply Forall_impl; [exact H|].
    by intros p (? & ? & _). }
  rewrite Hl. split; [done|]. intros Hne. apply split_char_join.
  - by intros ->.
  - eapply Forall_impl; [exact H|]. intros p (_ & Hp & _).
    by apply no_linebreak_no_LF.
Qed.

End NormalizerOutput.

(** ** What the pattern detector produces *)

Section PatternOutput.
Import EpubHandler.

Implicit Types (lines : list str) (text : str).

Lemma is_chapter_line_empty : is_chapter_line [] = false.
Proof. reflexivity. Qed.

Lemma body_lines_Forall (P : str -> Prop) lines :
  Forall P lines -> Forall P (body_lines lines).
Proof.
  induction 1 as [|l ls Hl _ IH]; simpl; [done|].
  destruct (is_chapter_line l); [done | by constructor].
Qed.

Lemma body_lines_not_heading lines :
  Forall (fun l => is_chapter_line l = false) (body_lines lines).
Proof.
  induction lines as [|l ls IH]; simpl; [done|].
  destruct (is_chapter_line l) eqn:E; [done | by constructor].
Qed.

Lemma chapters_of_lines_Forall (P : str -> Prop) (Q : chapter -> Prop) lines :
  Forall P lines ->
  (forall l rest, P l -> Forall P rest -> is_chapter_line l = true ->
     Q (plain_chapter (strip l) (join [LF] rest))) ->
  Forall Q (chapters_of_lines lines).
Proof.
  intros H HQ. induction H as [|l ls Hl Hls IH]; simpl; [done|].
  destruct (is_chapter_line l) eqn:E; [|done].
  constructor; [|done]. apply HQ; [done| |done]. by apply body_lines_Forall.
Qed.

(** X3. Every title the pattern detector returns is non-empty and has no
    white space at either end. *)
Theorem split_by_regex_titles (text : str) :
  Forall (fun ch => title ch <> [] /\ strip (title ch) = title ch)
    (split_by_regex text).
Proof.
  rewrite split_by_regex_chapters.
  induction (split_char LF text) as [|l ls IH]; simpl; [done|].
  destruct (is_chapter_line l) eqn:E; [|done].
  constructor; [|done]. simpl. split; [by apply chapter_line_title|].
  apply strip_idemp.
Qed.

(** X4. No line of the content of a chapter the pattern detector returns
    matches the chapter grammar. *)
Theorem split_by_regex_content_lines (text : str) :
  Forall (fun ch =>
            Forall (fun l => is_chapter_line l = false)
              (split_char LF (content ch)))
    (split_by_regex text).
Proof.
  rewrite split_by_regex_chapters.
  pose proof (split_char_parts LF text) as Hparts.
  induction Hparts as [|l ls Hl Hls IH]; simpl; [done|].
  destruct (is_chapter_line l) eqn:E; [|done].
  constructor; [|done]. simpl.
  destruct (body_lines ls) as [|b bs] eqn:Eb.
  - simpl. by repeat constructor.
  - rewrite split_char_join; [|done|].
    + rewrite <- Eb. apply body_lines_not_heading.
    + rewrite <- Eb. by apply body_lines_Forall.
Qed.

Lemma join_nil_inv (parts : list str) :
  Forall (fun p => p <> []) parts -> join [LF] parts = [] -> parts = [].
Proof.
  intros [|p ps Hp _]; [done|]. destruct ps; simpl; [done|].
  by destruct p.
Qed.

Lemma join_app (a b : list str) :
  a <> [] -> b <> [] -> join [LF] (a ++ b) = join [LF] a ++ LF :: join [LF] b.
Proof.
  induction a as [|p a IH]; [done|]. intros _ Hb.
  destruct a as [|q a].
  - simpl app. by rewrite join_cons.
  - change ((p :: q :: a) ++ b) with (p :: (q :: a) ++ b).
    rewrite join_cons by done. rewrite IH by done.
    rewrite (join_cons LF p (q :: a)) by done. by rewrite <- app_assoc.
Qed.

Lemma filter_truthy_cons (x : str) (l : list str) :
  x <> [] -> List.filter truthy (x :: l) = x :: List.filter truthy l.
Proof. intros H. simpl. by destruct x. Qed.

Lemma filter_truthy_nonempty (l : list str) :
  Forall (fun p => p <> []) (List.filter truthy l).
Proof.
  apply List.Forall_forall. intros x [_ Hx]%filter_In. by destruct x.
Qed.

(** Joining a text in front of joined texts is joining all the parts. *)
Lemma join_join_cons (cs : list str) (texts chunks : list str) :
  Forall (fun p => p <> []) cs ->
  Forall (fun p => p <> []) chunks ->
  Forall (fun p => p <> []) texts ->
  join [LF] texts = join [LF] chunks ->
  join [LF] (List.filter truthy (join [LF] cs :: texts)) = join [LF] (cs ++ chunks).
Proof.
  intros Hcs Hchunks Htexts E.
  destruct cs as [|c cs'].
  - simpl. assert (List.filter truthy texts = texts) as ->; [|done].
    clear E. induction Htexts as [|t ts Ht _ IH]; [done|].
    by rewrite filter_truthy_cons, IH.
  - assert (join [LF] (c :: cs') <> []) as Hne.
    { intros E'. by apply join_nil_inv in E'. }
    rewrite filter_truthy_cons by done.
    assert (List.filter truthy texts = texts) as ->.
    { clear E. induction Htexts as [|t ts Ht _ IH]; [done|].
      by rewrite filter_truthy_cons, IH. }
    destruct texts as [|t ts].
    + simpl in E. symmetry in E. apply join_nil_inv in E; [|done].
      by rewrite E, app_nil_r.
    + assert (chunks <> []) as Hc.
      { intros ->. change (join [LF] []) with (@nil N) in E.
        apply join_nil_inv in E; done. }
      rewrite join_cons by done. rewrite E. by rewrite join_app.
Qed.

(** The text of the whole book is a join of clean chunks. *)
Lemma extract_all_text_chunks (b : book) :
  exists chunks,
    extract_all_text b = join [LF] chunks /\ Forall clean_chunk chunks.
Proof.
  unfold extract_all_text.
  induction (documents b) as [|it its (chunks & E & H)].
  - by exists [].
  - destruct (clean_text_chunks (get_text (soup (get_content it))))
      as (cs & Ecs & Hcs).
    exists (cs ++ chunks). split; [|by apply Forall_app].
    change (map (fun it0 => extract_text_from_html (get_content it0)) (it :: its))
      with (clean_text (get_text (soup (get_content it)))
              :: map (fun it0 => extract_text_from_html (get_content it0)) its).
    rewrite Ecs.
    assert (forall (x : str) l,
              List.filter truthy (x :: List.filter truthy l)
              = List.filter truthy (x :: l)) as Hff.
    { intros x l. simpl. destruct (truthy x);
        [f_equal|]; clear; induction l as [|y l IH]; simpl; try done;
        destruct (truthy y) eqn:Ey; simpl; rewrite ?Ey, ?IH; done. }
    rewrite <- Hff. apply join_join_cons.
    + eapply Forall_impl; [exact Hcs|]. by intros p (? & _).
    + eapply Forall_impl; [exact H|]. by intros p (? & _).
    + apply filter_truthy_nonempty.
    + exact E.
Qed.

(** X5. Pattern detection over the text of the whole book: that text is
    already normalized, every title is a heading line as it stands in the
    text, and every content is normalized text. *)
Theorem split_by_regex_of_book (b : book) :
  clean_text (extract_all_text b) = extract_all_text b
  /\ Forall (fun ch =>
               is_chapter_line (title ch) = true
               /\ In (title ch) (split_char LF (extract_all_text b))
               /\ clean_text (content ch) = content ch)
       (split_by_regex (extract_all_text b)).
Proof.
  destruct (extract_all_text_chunks b) as (chunks & E & H). rewrite E.
  split; [by apply clean_text_fixed|].
  rewrite split_by_regex_chapters.
  destruct chunks as [|c cs]; [simpl; done|].
  rewrite split_char_join; [|done|].
  2:{ eapply Forall_impl; [exact H|]. intros p (_ & Hp & _).
      by apply no_linebreak_no_LF. }
  assert (forall ls, Forall clean_chunk ls ->
            Forall (fun ch => is_chapter_line (title ch) = true
                              /\ In (title ch) ls
                              /\ clean_text (content ch) = content ch)
              (chapters_of_lines ls)) as Hgen.
  { clear. induction 1 as [|l ls Hl Hls IH]; simpl; [done|].
    assert (Forall (fun ch => is_chapter_line (title ch) = true
                              /\ In (title ch) (l :: ls)
                              /\ clean_text (content ch) = content ch)
              (chapters_of_lines ls)) as IH'.
    { eapply Forall_impl; [exact IH|]. intros ch (? & ? & ?).
      repeat split; [done | by right | done]. }
    destruct (is_chapter_line l) eqn:El; [|done].
    constructor; [|done]. simpl.
    destruct Hl as (_ & _ & Hs & _). rewrite Hs.
    repeat split; [done | by left |].
    apply clean_text_fixed. by apply body_lines_Forall. }
  by apply Hgen.
Qed.

End PatternOutput.

(** ** What the structural detector produces *)

Section StructuralOutput.
Import EpubHandler Notions.

Variable text_content : node -> option str.

Lemma xpath_loop_ok chapter_nodes : forall chapters,
  Forall xpath_chapter_ok chapters ->
  Forall xpath_chapter_ok (xpath_loop text_content chapter_nodes chapters)
  /\ (length (xpath_loop text_content chapter_nodes chapters)
      <= length chapters + length chapter_nodes)%nat.
Proof.
  induction chapter_nodes as [|[n sibs] rest IH]; intros chapters H; simpl.
  - split; [done | lia].
  - destruct (text_content n) as [t|]; [|split; [done | lia]].
    destruct (content_elements text_content sibs) as [els|]; [|split; [done | lia]].
    destruct (truthy (strip t) && truthy (clean_text (join [LF] els))) eqn:E.
    + apply andb_true_iff in E as [Et Ec].
      destruct (IH (chapters ++ [plain_chapter (strip t) (clean_text (join [LF] els))]))
        as [IH1 IH2].
      { apply Forall_app. split; [done|]. constructor; [|done].
        repeat split; simpl.
        - by destruct (strip t).
        - by destruct (clean_text (join [LF] els)).
        - apply strip_idemp.
        - destruct (clean_text_chunks (join [LF] els)) as (chunks & -> & Hc).
          by apply clean_text_fixed. }
      split; [done|]. rewrite length_app in IH2. simpl in IH2. lia.
    + destruct (IH chapters H) as [IH1 IH2]. split; [done | lia].
Qed.

(** X6. Whatever the calls on the elements give, every chapter the
    structural detector returns has a non-empty title without white space
    at either end and a non-empty, normalized content; and there are at
    most as many chapters as heading nodes. *)
Theorem split_by_xpath_output (html_content : html) :
  Forall (fun ch => title ch <> [] /\ content ch <> []
                    /\ strip (title ch) = title ch
                    /\ clean_text (content ch) = content ch)
    (split_by_xpath text_content html_content)
  /\ (length (split_by_xpath text_content html_content)
      <= match etree html_content with
         | Some tree => length (heading_nodes tree)
         | None => 0
         end)%nat.
Proof.
  unfold split_by_xpath. destruct (etree html_content) as [tree|]; [|done].
  destruct (xpath_loop_ok
              (List.filter (fun p => is_chapter_node (fst p)) (descendants tree []))
              [] (List.Forall_nil _)) as [H1 H2].
  split; [exact H1 | exact H2].
Qed.

End StructuralOutput.

(** ** What the navigation detector produces *)

Section NavigationOutput.
Import EpubHandler Notions.

Implicit Types (b : book) (it : toc_item).

Lemma process_toc_item_deep b it lvl :
  (2 < lvl)%nat -> process_toc_item b it lvl = [].
Proof.
  intros H. destruct it as [h t subs]. simpl.
  destruct (Nat.ltb_spec 2 lvl); [done | lia].
Qed.

Lemma flat_map_nil {A B} (f : A -> list B) l :
  (forall x, f x = []) -> flat_map f l = [].
Proof. intros H. induction l as [|x l IH]; simpl; [done|]. by rewrite H, IH. Qed.

Lemma Forall_flat_map_all {A B} (P : B -> Prop) (f : A -> list B) l :
  (forall x, Forall P (f x)) -> Forall P (flat_map f l).
Proof.
  intros H. induction l as [|x l IH]; simpl; [done|].
  apply Forall_app. split; [apply H | done].
Qed.

Lemma process_toc_item_ok b : forall n lvl it,
  (3 <= lvl + n)%nat -> Forall (toc_chapter_ok b) (process_toc_item b it lvl).
Proof.
  induction n as [|n IH]; intros lvl it Hn.
  - rewrite process_toc_item_deep by lia. done.
  - destruct it as [h t subs]. simpl.
    destruct (Nat.ltb_spec 2 lvl) as [Hl|Hl]; [done|].
    apply Forall_app. split.
    + destruct h as [hr|]; [|done].
      destruct (get_item_with_href b hr) as [ci|] eqn:Ei; [|done].
      constructor; [|done]. exists hr, lvl, ci. simpl. repeat split; done.
    + apply Forall_flat_map_all. intros sub. apply IH. lia.
Qed.

(** X7. Every chapter the navigation detector takes from the table of
    contents has a level of at most 2 and an [href] that names an item of
    the book, and its content is the normalized text of that item. *)
Theorem toc_chapters_ok b :
  Forall (fun ch =>
            exists hr lvl content_item,
              href ch = Some hr /\ level ch = Some lvl /\ (lvl <= 2)%nat
              /\ get_item_with_href b hr = Some content_item
              /\ content ch = extract_text_from_html (get_content content_item))
    (toc_chapters b).
Proof.
  unfold toc_chapters. apply Forall_flat_map_all. intros it.
  apply (process_toc_item_ok b 3%nat 0%nat it). lia.
Qed.

Lemma process_toc_item_items b b' it lvl :
  get_items b = get_items b' ->
  process_toc_item b it lvl = process_toc_item b' it lvl.
Proof.
  intros E. revert lvl it.
  assert (forall n lvl it, (3 <= lvl + n)%nat ->
            process_toc_item b it lvl = process_toc_item b' it lvl) as H.
  { induction n as [|n IH]; intros lvl it Hn.
    - by rewrite !process_toc_item_deep by lia.
    - destruct it as [h t subs]. simpl.
      destruct (Nat.ltb_spec 2 lvl) as [Hl|Hl]; [done|].
      unfold get_item_with_href. rewrite E. f_equal.
      induction subs as [|sub subs IHs]; simpl; [done|].
      rewrite IHs. f_equal. apply IH. lia. }
  intros lvl it. destruct (Nat.le_gt_cases lvl 2).
  - apply (H 3%nat). lia.
  - by rewrite !process_toc_item_deep by lia.
Qed.

Lemma process_toc_item_prune b : forall d lvl it,
  (lvl + d = 2)%nat ->
  process_toc_item b (prune_toc d it) lvl = process_toc_item b it lvl.
Proof.
  induction d as [|d IH]; intros lvl it Hd; destruct it as [h t subs]; simpl.
  - destruct (Nat.ltb_spec 2 lvl) as [Hl|Hl]; [done|]. f_equal.
    symmetry. apply flat_map_nil. intros sub.
    apply process_toc_item_deep. lia.
  - destruct (Nat.ltb_spec 2 lvl) as [Hl|Hl]; [done|]. f_equal.
    induction subs as [|sub subs IHs]; simpl; [done|].
    rewrite IHs. f_equal. apply IH. lia.
Qed.

(** X8. Entries below the third level of the table of contents play no
    part: cutting every top-level entry below two further levels leaves
    the chapters of the navigation detector unchanged. *)
Theorem toc_chapters_prune b :
  toc_chapters {| get_items := get_items b; toc := map (prune_toc 2) (toc b) |}
  = toc_chapters b.
Proof.
  assert (forall b' its, get_items b' = get_items b ->
            flat_map (fun it => process_toc_item b' it 0) (map (prune_toc 2) its)
            = flat_map (fun it => process_toc_item b it 0) its) as H.
  { intros b' its E. induction its as [|it its IH]; [done|].
    cbn [flat_map map]. rewrite IH. f_equal.
    rewrite (process_toc_item_items b' b) by done.
    by apply process_toc_item_prune. }
  unfold toc_chapters. by apply H.
Qed.

End NavigationOutput.

(** ** How the entry points relate *)

Section EntryPoints.
Import EpubHandler Notions Main Examples.

Variable text_content : node -> option str.

Implicit Types (b : book) (m : str).

Lemma toc_chapter_ok_keys b ch : toc_chapter_ok b ch -> has_keys ch.
Proof. intros (hr & lvl & it & Hh & Hl & _). split; eauto. Qed.

Lemma get_toc_chapters_has_keys b include_all :
  Forall has_keys (get_toc_chapters b include_all).
Proof.
  assert (Forall has_keys (toc_chapters b)) as Htoc.
  { unfold toc_chapters. apply Forall_flat_map_all. intros it.
    eapply Forall_impl; [apply (process_toc_item_ok b 3%nat 0%nat it); lia|].
    apply toc_chapter_ok_keys. }
  unfold get_toc_chapters. destruct (toc_chapters b) as [|ch chs] eqn:E; [|done].
  destruct include_all; [|done].
  apply Forall_forall. intros ch Hin.
  apply list_elem_of_lookup in Hin as [i Hi]. rewrite list_lookup_imap in Hi.
  destruct (split_by_regex _ !! i); [|done]. injection Hi as <-.
  split; eexists; reflexivity.
Qed.

Lemma fill_keys_id i ch : has_keys ch -> fill_keys i ch = ch.
Proof.
  destruct ch as [t c h l]. intros [[h' Hh] [l' Hl]]. simpl in *. by subst.
Qed.

Lemma imap_fill_keys_id (chapters : list chapter) :
  Forall has_keys chapters -> imap fill_keys chapters = chapters.
Proof.
  intros H. apply list_eq. intros i. rewrite list_lookup_imap.
  destruct (chapters !! i) as [ch|] eqn:E; [|done]. simpl. f_equal.
  apply fill_keys_id. eapply Forall_lookup_1; [exact H | exact E].
Qed.

Lemma with_fallback_nil b : with_fallback b [] = get_toc_chapters b true.
Proof.
  unfold with_fallback. simpl.
  destruct (get_toc_chapters b true) as [|ch chs] eqn:E; [|done]. simpl.
  by apply get_toc_chapters_all_nil in E as [_ ->].
Qed.

Lemma get_all_chapters_of_toc b m :
  m <> lit "xpath" -> m <> lit "regex" ->
  get_all_chapters text_content b m = get_toc_chapters b true.
Proof.
  intros H1 H2. unfold get_all_chapters, requested_chapters.
  rewrite !bool_decide_eq_false_2 by done.
  assert (with_fallback b (if bool_decide (m = lit "toc")
                           then get_toc_chapters b true else [])
          = get_toc_chapters b true) as ->.
  { destruct (bool_decide (m = lit "toc")); [|apply with_fallback_nil].
    destruct (get_toc_chapters b true) as [|ch chs] eqn:E; [|done].
    by rewrite with_fallback_nil. }
  apply imap_fill_keys_id, get_toc_chapters_has_keys.
Qed.

(** X9. The chapters of the navigation detector always have [href] and
    [level]; and for the method [toc], as for every method name other than
    [xpath] and [regex], the enumeration for user choice returns exactly
    what the navigation detector returns in its include-all mode. *)
Theorem get_all_chapters_toc b m :
  m <> lit "xpath" -> m <> lit "regex" ->
  Forall has_keys (get_toc_chapters b true)
  /\ get_all_chapters text_content b m = get_toc_chapters b true.
Proof.
  intros H1 H2. split; [apply get_toc_chapters_has_keys|].
  by apply get_all_chapters_of_toc.
Qed.

(** X10. For a book whose table of contents gives no chapter, the
    enumeration for user choice returns the same list for the methods
    [regex] and [toc]. *)
Theorem get_all_chapters_regex_toc b :
  toc_chapters b = [] ->
  get_all_chapters text_content b (lit "regex")
  = get_all_chapters text_content b (lit "toc").
Proof.
  intros Htoc. rewrite (get_all_chapters_of_toc b (lit "toc")) by done.
  unfold get_all_chapters, requested_chapters. simpl.
  unfold get_toc_chapters. rewrite Htoc.
  pose proof (split_by_regex_no_keys (extract_all_text b)) as Hk.
  destruct (split_by_regex (extract_all_text b)) as [|ch chs] eqn:E.
  - rewrite with_fallback_nil. unfold get_toc_chapters. by rewrite Htoc, E.
  - unfold with_fallback. simpl truthy. cbv iota.
    apply list_eq. intros i. rewrite !list_lookup_imap.
    destruct ((ch :: chs) !! i) as [c|] eqn:Ei; [|done]. simpl. f_equal.
    eapply Forall_lookup_1 in Hk as [Hh Hl]; [|exact Ei].
    unfold fill_keys. by rewrite Hh, Hl.
Qed.

(** X11. The worker never asks for the automatic mode: whatever the
    number of the chosen method, the name it passes is one of [xpath],
    [regex] and [toc], and the chapters it works on, when the user
    selected none, are those of that one detector, without fall-back. *)
Theorem worker_chapters_one_detector b (detection_method : Z) :
  (worker_method_name detection_method = lit "xpath"
   \/ worker_method_name detection_method = lit "regex"
   \/ worker_method_name detection_method = lit "toc")
  /\ worker_chapters text_content b [] detection_method =
     (if (detection_method =? 2)%Z then split_by_regex (extract_all_text b)
      else if (detection_method =? 3)%Z then get_toc_chapters b false
      else _split_by_xpath text_content b []).
Proof.
  unfold worker_chapters, worker_method_name. simpl truthy. cbv iota.
  destruct (detection_method =? 1)%Z eqn:E1.
  - apply Z.eqb_eq in E1 as ->. split; [by left | done].
  - destruct (detection_method =? 2)%Z eqn:E2; [split; [right; by left | done]|].
    destruct (detection_method =? 3)%Z eqn:E3; [split; [right; by right | done]|].
    split; [by left | done].
Qed.

End EntryPoints.

Section EntryPointWitnesses.
Import EpubHandler Notions Examples.

(** X9 at the method [toc] and the book of one document. *)
Lemma get_all_chapters_toc_witness :
  lit "toc" <> lit "xpath" /\ lit "toc" <> lit "regex"
  /\ get_all_chapters html_text_content one_chapter_book (lit "toc")
     = get_toc_chapters one_chapter_book true.
Proof.
  assert (lit "toc" <> lit "xpath") as H1 by discriminate.
  assert (lit "toc" <> lit "regex") as H2 by discriminate.
  split; [exact H1|]. split; [exact H2|].
  exact (proj2 (get_all_chapters_toc html_text_content one_chapter_book
                  (lit "toc") H1 H2)).
Defined.

(** X10 at the book of one document, which has no table of contents. *)
Lemma get_all_chapters_regex_toc_witness :
  toc_chapters one_chapter_book = []
  /\ get_all_chapters html_text_content one_chapter_book (lit "regex")
     = get_all_chapters html_text_content one_chapter_book (lit "toc").
Proof.
  split; [reflexivity|].
  exact (get_all_chapters_regex_toc html_text_content one_chapter_book eq_refl).
Defined.

End EntryPointWitnesses.

(** ** More on the order of the merged artifacts *)

Section SortFacts.
Import AIHandler.
Context {A : Type} (key : A -> N).

Lemma insert_by_front x l :
  HdRel (key_le key) x l -> insert_by key x l = x :: l.
Proof.
  intros [|y t Hxy]; simpl; [done|].
  unfold key_le in Hxy. apply N.leb_le in Hxy. by rewrite Hxy.
Qed.

(** Sorting a list that is in ascending order changes nothing. *)
Lemma sorted_of_Sorted l : Sorted (key_le key) l -> sorted key l = l.
Proof.
  induction 1 as [|x l Hl IH Hx]; simpl; [done|].
  rewrite IH. by apply insert_by_front.
Qed.

Lemma insert_by_past_zeros x zs l :
  Forall (fun a => key a = 0) zs -> key x <> 0 ->
  insert_by key x (zs ++ l) = zs ++ insert_by key x l.
Proof.
  intros Hz Hx. induction Hz as [|z zs Hk _ IH]; simpl; [done|].
  rewrite Hk. destruct (key x <=? 0) eqn:E.
  - apply N.leb_le in E. lia.
  - by rewrite IH.
Qed.

Lemma sorted_zeros_first l :
  sorted key l =
  List.filter (fun a => key a =? 0) l
    ++ sorted key (List.filter (fun a => negb (key a =? 0)) l).
Proof.
  induction l as [|x l IH]; simpl; [done|]. rewrite IH.
  destruct (key x =? 0) eqn:E; simpl.
  - apply N.eqb_eq in E. apply insert_by_front.
    destruct (_ ++ _) as [|y t]; constructor. unfold key_le. lia.
  - apply N.eqb_neq in E. apply insert_by_past_zeros; [|done].
    apply List.Forall_forall. intros a [_ Ha]%filter_In. by apply N.eqb_eq.
Qed.

End SortFacts.

Section MergeOrderMore.
Import AIHandler Inputs.

Variable decimal_value : N -> option N.

Lemma has_numbering_perm (l1 l2 : list str) :
  l1 ≡ₚ l2 -> has_numbering decimal_value l1 = has_numbering decimal_value l2.
Proof.
  intros Hp.
  assert (forall a b : list str, a ≡ₚ b ->
            has_numbering decimal_value a = true ->
            has_numbering decimal_value b = true) as H.
  { intros a b Hab. rewrite !has_numbering_spec, !Exists_exists.
    intros (f & Hin & Hf). exists f. split; [by rewrite <- Hab | done]. }
  destruct (has_numbering decimal_value l1) eqn:E1.
  - symmetry. by apply (H l1 l2).
  - destruct (has_numbering decimal_value l2) eqn:E2; [|done].
    symmetry in Hp. rewrite (H l2 l1 Hp E2) in E1. done.
Qed.

(** X12. When some artifact is numbered, the artifacts whose key is 0,
    that is those without a numeral in their name (or with the numeral
    0), all come first, in their input order, before every artifact with
    a positive numeral: back matter without a number is moved in front of
    the numbered chapters. *)
Theorem resolved_order_unnumbered_first (files : list str) :
  has_numbering decimal_value files = true ->
  resolved_order decimal_value files =
  List.filter (fun f => sort_key decimal_value f =? 0) files
    ++ sorted (sort_key decimal_value)
         (List.filter (fun f => negb (sort_key decimal_value f =? 0)) files).
Proof.
  intros H. unfold resolved_order. rewrite H. apply sorted_zeros_first.
Qed.

(** X13. A list of artifacts that is already in ascending order of the
    keys is emitted in its input order. *)
Theorem resolved_order_of_sorted (files : list str) :
  Sorted (key_le (sort_key decimal_value)) files ->
  resolved_order decimal_value files = files.
Proof.
  intros H. unfold resolved_order.
  destruct (has_numbering decimal_value files); [|done].
  by apply sorted_of_Sorted.
Qed.

(** X14. Resolving the order is idempotent: merging the artifacts in the
    order a merge emitted them gives that order again. *)
Theorem resolved_order_idempotent (files : list str) :
  resolved_order decimal_value (resolved_order decimal_value files)
  = resolved_order decimal_value files.
Proof.
  unfold resolved_order.
  destruct (has_numbering decimal_value files) eqn:E; [|by rewrite E].
  rewrite (has_numbering_perm _ files) by apply sorted_perm. rewrite E.
  apply sorted_of_Sorted, sorted_Sorted.
Qed.

End MergeOrderMore.

Section MergeOrderWitnesses.
Import AIHandler Inputs.

(** X12 on [intro], [ch2], [afterword], [ch1]: the afterword comes second. *)
Lemma resolved_order_unnumbered_first_witness :
  has_numbering ascii_decimal mixed_files = true
  /\ resolved_order ascii_decimal mixed_files =
     [lit "intro"; lit "afterword"; lit "ch1"; lit "ch2"].
Proof.
  split; [reflexivity|].
  rewrite (resolved_order_unnumbered_first ascii_decimal mixed_files eq_refl).
  reflexivity.
Defined.

(** X13 on [ch1], [ch2], [ch10]. *)
Lemma resolved_order_of_sorted_witness :
  Sorted (key_le (sort_key ascii_decimal)) ascending_files
  /\ resolved_order ascii_decimal ascending_files = ascending_files.
Proof.
  assert (Sorted (key_le (sort_key ascii_decimal)) ascending_files) as H.
  { unfold ascending_files.
    repeat (constructor; try (unfold key_le; vm_compute; discriminate)). }
  split; [exact H|].
  exact (resolved_order_of_sorted ascii_decimal ascending_files H).
Defined.

End MergeOrderWitnesses.

(** ** The emitted body holds no heading line *)

Section BodyHeadings.
Import AIHandler Notions.

Implicit Types (s t l w : str) (c : N).

Lemma is_heading_line_lstrip l :
  is_heading_line l =
  match lstrip l with
  | d :: _ => HASH =? d
  | [] => false
  end.
Proof.
  unfold is_heading_line, strip.
  destruct (lstrip l) as [|d u] eqn:E; [done|].
  pose proof (lstrip_head _ _ _ E) as Hd.
  destruct (rstrip_head d u Hd) as [r ->]. simpl. by rewrite andb_true_r.
Qed.

Lemma lstrip_app_visible l w d u :
  lstrip l = d :: u -> lstrip (l ++ w) = d :: u ++ w.
Proof.
  induction l as [|c l IH]; simpl; [done|].
  destruct (is_space c); [done|]. by intros [= <- <-].
Qed.

Lemma is_heading_line_app l w :
  is_heading_line l = true -> is_heading_line (l ++ w) = true.
Proof.
  rewrite !is_heading_line_lstrip.
  destruct (lstrip l) as [|d u] eqn:E; [done|].
  by rewrite (lstrip_app_visible l w d u E).
Qed.

Lemma is_heading_line_space c l :
  is_space c = true -> is_heading_line (c :: l) = is_heading_line l.
Proof. intros H. unfold is_heading_line. by rewrite strip_space. Qed.

Lemma split_char_add_front c s :
  c <> LF -> split_char LF (c :: s) = add_front [c] (split_char LF s).
Proof.
  intros Hc. simpl. apply N.eqb_neq in Hc. rewrite Hc.
  by destruct (split_char LF s).
Qed.

Lemma add_front_add_front pre c parts :
  add_front pre (add_front [c] parts) = add_front (pre ++ [c]) parts.
Proof. destruct parts as [|p ps]; simpl; by rewrite <- ?app_assoc. Qed.

(** A prefix of a text without heading lines has no heading line. *)
Lemma heading_free_prefix_gen s : forall pre t,
  Forall (fun l => is_heading_line l = false)
    (add_front pre (split_char LF (s ++ t))) ->
  Forall (fun l => is_heading_line l = false)
    (add_front pre (split_char LF s)).
Proof.
  induction s as [|c s IH]; intros pre t H.
  - simpl. constructor; [|done]. rewrite app_nil_r.
    pose proof (split_char_nonempty LF t) as Hne.
    destruct (split_char LF ([] ++ t)) as [|l0 ls] eqn:E; [done|].
    simpl in H. apply Forall_cons in H as [H _].
    destruct (is_heading_line pre) eqn:Ep; [|done].
    by rewrite (is_heading_line_app pre l0 Ep) in H.
  - destruct (N.eq_dec c LF) as [->|Hc].
    + change (split_char LF ((LF :: s) ++ t)) with ([] :: split_char LF (s ++ t)) in H.
      change (split_char LF (LF :: s)) with ([] :: split_char LF s).
      simpl in *. rewrite app_nil_r in *.
      apply Forall_cons in H as [Hp H]. constructor; [done|].
      specialize (IH [] t). simpl in IH.
      assert (forall L : list str, add_front [] L = L \/ L = []) as Haf.
      { intros [|p ps]; [by right | by left]. }
      destruct (Haf (split_char LF (s ++ t))) as [E|E];
        [|by apply split_char_nonempty in E].
      destruct (Haf (split_char LF s)) as [E'|E'];
        [|by apply split_char_nonempty in E'].
      rewrite <- E'. apply IH. by rewrite E.
    + change ((c :: s) ++ t) with (c :: s ++ t) in H.
      rewrite split_char_add_front in * by done.
      rewrite add_front_add_front in *. by apply (IH _ t).
Qed.

Lemma heading_free_prefix s t : heading_free (s ++ t) -> heading_free s.
Proof.
  unfold heading_free. intros H.
  pose proof (heading_free_prefix_gen s [] t) as Hg.
  assert (forall L : list str, L <> [] -> add_front [] L = L) as Haf.
  { by intros [|p ps]. }
  rewrite !Haf in Hg by apply split_char_nonempty. by apply Hg.
Qed.

Lemma heading_free_lstrip s : heading_free s -> heading_free (lstrip s).
Proof.
  unfold heading_free. induction s as [|c s IH]; simpl lstrip; [done|].
  destruct (is_space c) eqn:E; [|done]. intros H. apply IH.
  destruct (N.eq_dec c LF) as [->|Hc].
  - change (split_char LF (LF :: s)) with ([] :: split_char LF s) in H.
    by apply Forall_cons in H as [_ H].
  - rewrite split_char_add_front in H by done.
    pose proof (split_char_nonempty LF s) as Hne.
    destruct (split_char LF s) as [|l0 ls]; [done|]. simpl in H.
    apply Forall_cons in H as [H0 H]. constructor; [|done].
    by rewrite is_heading_line_space in H0.
Qed.

Lemma heading_free_strip s : heading_free s -> heading_free (strip s).
Proof.
  intros H. apply heading_free_lstrip in H. unfold strip.
  destruct (rstrip_prefix (lstrip s)) as [k Hk]. rewrite Hk in H.
  by apply heading_free_prefix in H.
Qed.

Lemma split_char_app_sep sep (x y : str) :
  split_char sep (x ++ sep :: y) = split_char sep x ++ split_char sep y.
Proof.
  induction x as [|c x IH]; simpl.
  - by rewrite N.eqb_refl.
  - destruct (c =? sep); rewrite IH; [done|].
    pose proof (split_char_nonempty sep x) as Hne.
    by destruct (split_char sep x).
Qed.

Lemma heading_free_join (kept : list str) :
  Forall (Forall (fun c => c <> LF)) kept ->
  Forall (fun l => is_heading_line l = false) kept ->
  heading_free (join [LF] kept).
Proof.
  intros Hsep Hk. unfold heading_free. destruct kept as [|k ks].
  - by repeat constructor.
  - by rewrite split_char_join.
Qed.

(** X15. No line of the body emitted for a readable artifact is a
    heading line: trimmed of white space, none starts with the heading
    marker. The heading lines of a merged section are the generated
    ones. *)
Theorem body_text_heading_free (content : str) :
  Forall (fun l => is_heading_line l = false)
    (split_char LF (body_text content)).
Proof.
  unfold body_text.
  change [LF; LF] with (LF :: [LF]). rewrite split_char_app_sep.
  apply Forall_app. split; [|by repeat constructor].
  apply heading_free_strip, heading_free_join.
  - apply List.Forall_forall. intros l [Hl _]%filter_In.
    pose proof (split_char_parts LF content) as Hp.
    rewrite List.Forall_forall in Hp. by apply Hp.
  - apply List.Forall_forall. intros l [_ Hl]%filter_In.
    by apply negb_true_iff.
Qed.

End BodyHeadings.

(** ** The retries of generate_summary *)

Section Retries.
Import Summarizer Inputs.

Variable request : nat -> api_outcome.

Lemma slept_app e1 e2 : slept (e1 ++ e2) = (slept e1 + slept e2)%nat.
Proof.
  induction e1 as [|[k|k] e1 IH]; simpl; [done| done |]. rewrite IH. lia.
Qed.

Lemma requests_app e1 e2 : requests (e1 ++ e2) = requests e1 ++ requests e2.
Proof.
  induction e1 as [|[k|k] e1 IH]; simpl; [done| |done]. by rewrite IH.
Qed.

Lemma slept_failed_passes made retry n :
  (slept (failed_passes made retry n) + 2 ^ retry = 2 ^ (retry + n))%nat.
Proof.
  revert retry. induction n as [|n IH]; intros retry; simpl.
  - by rewrite Nat.add_0_r.
  - unfold failed_passes in *. specialize (IH (S retry)).
    replace (retry + S n)%nat with (S retry + n)%nat by lia.
    simpl in IH. simpl. lia.
Qed.

Lemma requests_failed_passes made retry n :
  requests (failed_passes made retry n) = map (fun j => (made + j)%nat) (seq retry n).
Proof.
  revert retry. induction n as [|n IH]; intros retry; simpl; [done|].
  unfold failed_passes in *. by rewrite IH.
Qed.


Lemma generate_loop_exhausted made max_retries n : forall retry,
  (retry + S n = max_retries)%nat ->
  (forall j, (j <= n)%nat -> exists e, request (made + (retry + j)) = ApiError e) ->
  exists e,
    request (made + (retry + n)) = ApiError e
    /\ generate_loop request made max_retries retry (S n) =
       (Failed (generate_failed ++ e),
        failed_passes made retry n ++ [Request (made + (retry + n))]).
Proof.
  induction n as [|n IH]; intros retry Hm Hfail.
  - destruct (Hfail 0%nat) as [e He]; [lia|]. exists e. split; [done|].
    simpl. rewrite Nat.add_0_r in *. rewrite He.
    destruct (Nat.ltb_spec retry (max_retries - 1)) as [?|_]; [lia|]. done.
  - destruct (IH (S retry)) as (e & He & Hg); [lia| |].
    { intros j Hj. destruct (Hfail (S j)) as [e' He']; [lia|]. exists e'.
      by replace (S retry + j)%nat with (retry + S j)%nat by lia. }
    exists e. replace (retry + S n)%nat with (S retry + n)%nat by lia.
    split; [done|].
    destruct (Hfail 0%nat) as [e0 He0]; [lia|]. rewrite Nat.add_0_r in He0.
    change (generate_loop request made max_retries retry (S (S n))) with
      (match request (made + retry) with
       | ApiOk content => (Summary (strip content), [Request (made + retry)])
       | ApiError e =>
           if (retry <? max_retries - 1)%nat
           then let '(r, events) :=
                  generate_loop request made max_retries (S retry) (S n) in
                (r, Request (made + retry) :: Sleep (2 ^ retry) :: events)
           else (Failed (generate_failed ++ e), [Request (made + retry)])
       end).
    rewrite He0.
    destruct (Nat.ltb_spec retry (max_retries - 1)) as [_|?]; [|lia].
    rewrite Hg. done.
Qed.


(** X17. When every request fails: with [max_retries] at least 1,
    [generate_summary] raises with the message of the last failure after
    exactly [max_retries] requests and [2^(max_retries - 1) - 1] seconds
    of sleep, none after the last failure; with [max_retries] 0 it makes
    no request and returns [None]. *)
Theorem generate_summary_exhausted made max_retries :
  (forall j, (j < max_retries)%nat -> exists e, request (made + j) = ApiError e) ->
  match max_retries with
  | O => generate_summary request made max_retries = (NoSummary, [])
  | S n =>
      exists e events,
        request (made + n) = ApiError e
        /\ generate_summary request made max_retries =
           (Failed (generate_failed ++ e), events)
        /\ requests events = map (fun j => (made + j)%nat) (seq 0 (S n))
        /\ (slept events = 2 ^ n - 1)%nat
  end.
Proof.
  intros Hfail. destruct max_retries as [|n]; [done|].
  destruct (generate_loop_exhausted made (S n) n 0%nat) as (e & He & Hg); [lia| |].
  { intros j Hj. apply Hfail. lia. }
  exists e, (failed_passes made 0 n ++ [Request (made + (0 + n))]).
  split; [done|]. split; [exact Hg|]. split.
  - rewrite requests_app, requests_failed_passes. simpl requests.
    rewrite seq_S. by rewrite map_app.
  - rewrite slept_app. simpl slept.
    pose proof (slept_failed_passes made 0 n) as H. simpl in H. lia.
Qed.

End Retries.

Section RetryWitnesses.
Import Summarizer Inputs.


(** X17 with three tries. *)
Lemma generate_summary_exhausted_witness :
  (forall j, (j < 3)%nat -> exists e, always_down (0 + j) = ApiError e)
  /\ exists events,
       generate_summary always_down 0 3 = (Failed (generate_failed ++ lit "down"), events)
       /\ slept events = 3%nat.
Proof.
  assert (forall j, (j < 3)%nat -> exists e, always_down (0 + j) = ApiError e) as H.
  { intros j _. by exists (lit "down"). }
  split; [exact H|].
  destruct (generate_summary_exhausted always_down 0 3 H) as (e & events & He & E & _ & Hs).
  injection He as <-. exists events. split; [exact E | exact Hs].
Defined.

End RetryWitnesses.

(** ** Saving the chapters *)

Section SaveChapters.
Import EpubHandler Files Storage Inputs.

Implicit Types (t name : str) (ch : chapter) (fs : files).

Lemma safe_title_legal t : Forall (fun c => is_illegal c = false) (safe_title t).
Proof.
  induction t as [|c t IH]; simpl; [done|]. constructor; [|done].
  destruct (is_illegal c) eqn:E; [reflexivity | done].
Qed.

Lemma safe_title_id t :
  Forall (fun c => is_illegal c = false) t -> safe_title t = t.
Proof.
  induction 1 as [|c t Hc _ IH]; simpl; [done|]. by rewrite Hc, IH.
Qed.

(** X18. The file name made from a title has the length of the title and
    holds none of the characters the substitution replaces (less-than,
    greater-than, colon, double quote, slash, backslash, bar, question
    mark, asterisk); a title without
    such characters is its own file name, and making the file name of a
    file name changes nothing. *)
Theorem safe_title_properties (t : str) :
  Forall (fun c => is_illegal c = false) (safe_title t)
  /\ length (safe_title t) = length t
  /\ safe_title (safe_title t) = safe_title t
  /\ (Forall (fun c => is_illegal c = false) t -> safe_title t = t).
Proof.
  split; [apply safe_title_legal|]. split; [apply length_map|].
  split; [apply safe_title_id, safe_title_legal | apply safe_title_id].
Qed.

Lemma basename_no_slash name :
  Forall (fun c => c <> SLASH) name -> basename name = name.
Proof.
  intros H. destruct name as [|c name]; [done|]. simpl.
  assert (existsb (N.eqb SLASH) (c :: name) = false) as E.
  { apply not_true_iff_false. intros [x [Hin Hx]]%existsb_exists.
    apply N.eqb_eq in Hx as <-. rewrite List.Forall_forall in H. by apply (H SLASH). }
  simpl in E. by rewrite E.
Qed.

Lemma basename_after_slash (dir name : str) :
  Forall (fun c => c <> SLASH) name -> basename (dir ++ SLASH :: name) = name.
Proof.
  intros H. induction dir as [|c dir IH].
  - change (basename ([] ++ SLASH :: name)) with (basename name).
    by apply basename_no_slash.
  - change ((c :: dir) ++ SLASH :: name) with (c :: dir ++ SLASH :: name).
    assert (existsb (N.eqb SLASH) (c :: dir ++ SLASH :: name) = true) as E.
    { apply existsb_exists. exists SLASH. split; [|apply N.eqb_refl].
      right. apply in_or_app. right. by left. }
    simpl in *. by rewrite E.
Qed.

Lemma basename_path_join (dir name : str) :
  Forall (fun c => c <> SLASH) name -> basename (path_join dir name) = name.
Proof.
  intros H. unfold path_join.
  assert (startswith [SLASH] name = false) as ->.
  { destruct name as [|c name]; [done|].
    apply Forall_cons in H as [Hc _].
    change (startswith [SLASH] (c :: name)) with ((SLASH =? c) && true).
    rewrite andb_true_r. apply N.eqb_neq. congruence. }
  destruct dir as [|d dir]; [by apply basename_no_slash|].
  case_bool_decide as Hl; [|by apply basename_after_slash].
  apply last_Some in Hl as [dir' E]. rewrite E, <- app_assoc. simpl.
  by apply basename_after_slash.
Qed.

Lemma legal_no_slash name :
  Forall (fun c => is_illegal c = false) name -> Forall (fun c => c <> SLASH) name.
Proof. intros H. eapply Forall_impl; [exact H|]. intros c Hc ->. done. Qed.

Lemma md_path_basename_eq (output_dir : str) (ch : chapter) :
  basename (md_path output_dir ch) = safe_title (title ch) ++ lit ".md".
Proof.
  unfold md_path. apply basename_path_join. apply Forall_app. split.
  - apply legal_no_slash, safe_title_legal.
  - by repeat constructor.
Qed.

(** X19. Whatever the output directory, the base name of the file a
    chapter is saved in is the file name made from its title followed by
    [.md]. *)
Theorem md_path_basename (output_dir : str) (ch : chapter) :
  basename (md_path output_dir ch) = safe_title (title ch) ++ lit ".md".
Proof. apply md_path_basename_eq. Qed.

Variable writable : str -> bool.







End SaveChapters.

Section SaveWitnesses.
Import EpubHandler Files Storage Inputs.



End SaveWitnesses.

(** ** Summarizing a batch of files *)

Section BatchFacts.
Import Files Summarizer Batch AIHandler Notions Inputs.

Variable request : nat -> api_outcome.
Variable writable : str -> bool.
Variable read_error write_error : str -> str.
Variable type_error : str.







End BatchFacts.

(** ** From the summary file to the merged section *)

Section SummaryRoundTrip.
Import Files Summarizer Batch AIHandler Notions.

Implicit Types (s t : str).






End SummaryRoundTrip.

Section BatchWitnesses.
Import Files Summarizer Batch AIHandler Notions Inputs.


End BatchWitnesses.

(** ** From the title of a chapter to the index of the merged document *)

Section DisplayTitle.
Import EpubHandler Files Storage Batch AIHandler Notions Titles Inputs.

Implicit Types (s t u p : str) (c : N).

Lemma startswith_app p : forall t u,
  startswith p (t ++ u) =
  if (length p <=? length t)%nat then startswith p t
  else startswith (take (length t) p) t && startswith (drop (length t) p) u.
Proof.
  induction p as [|a p IH]; intros t u; [done|].
  destruct t as [|b t]; [done|].
  simpl. rewrite IH. change (length (a :: p) <=? length (b :: t))%nat
    with (length p <=? length t)%nat.
  destruct (length p <=? length t)%nat; [done|]. by rewrite andb_assoc.
Qed.

(** The suffix [_summary.md] cannot begin inside a text and end in a copy
    of itself that follows the text. *)
Lemma startswith_summary_suffix t :
  t <> [] ->
  startswith (lit "_summary.md") (t ++ lit "_summary.md") = true ->
  startswith (lit "_summary.md") t = true.
Proof.
  intros Hne. rewrite startswith_app.
  destruct (Nat.leb_spec (length (lit "_summary.md")) (length t)) as [_|Hlt]; [done|].
  intros H. apply andb_true_iff in H as [_ H]. exfalso.
  destruct t as [|c1 t]; [done|]. clear Hne.
  change (length (lit "_summary.md")) with 11%nat in Hlt. simpl in Hlt.
  do 10 (destruct t as [|? t]; [vm_compute in H; discriminate H | simpl in Hlt]).
  lia.
Qed.

Lemma replace_fuel_nil n old new : replace_fuel n old new [] = [].
Proof. by destruct n. Qed.

Lemma replace_summary_suffix t : forall n,
  (length t < n)%nat ->
  contains (lit "_summary.md") t = false ->
  replace_fuel n (lit "_summary.md") [] (t ++ lit "_summary.md") = t.
Proof.
  induction t as [|c t IH]; intros n Hn Hc.
  - destruct n as [|n]; [simpl in Hn; lia|]. simpl app.
    change (replace_fuel (S n) (lit "_summary.md") [] (lit "_summary.md"))
      with (replace_fuel n (lit "_summary.md") [] []).
    apply replace_fuel_nil.
  - destruct n as [|n]; [simpl in Hn; lia|].
    change (contains (lit "_summary.md") (c :: t)) with
      (startswith (lit "_summary.md") (c :: t) || contains (lit "_summary.md") t) in Hc.
    apply orb_false_iff in Hc as [Hs Hc].
    assert (startswith (lit "_summary.md") ((c :: t) ++ lit "_summary.md") = false) as E.
    { apply not_true_iff_false. intros E.
      apply startswith_summary_suffix in E; [congruence | done]. }
    change (replace_fuel (S n) (lit "_summary.md") [] ((c :: t) ++ lit "_summary.md"))
      with (if startswith (lit "_summary.md") ((c :: t) ++ lit "_summary.md")
            then [] ++ replace_fuel n (lit "_summary.md") []
                         (drop (length (lit "_summary.md"))
                            ((c :: t) ++ lit "_summary.md"))
            else c :: replace_fuel n (lit "_summary.md") [] (t ++ lit "_summary.md")).
    rewrite E. f_equal. apply IH; [simpl in Hn; lia | done].
Qed.

Lemma replace_char a b s : forall n,
  (length s <= n)%nat ->
  replace_fuel n [a] [b] s = map (fun c => if c =? a then b else c) s.
Proof.
  induction s as [|c s IH]; intros n Hn; [apply replace_fuel_nil|].
  destruct n as [|n]; [simpl in Hn; lia|]. simpl.
  rewrite andb_true_r, (N.eqb_sym a c).
  destruct (c =? a); simpl; f_equal; apply IH; simpl in Hn; lia.
Qed.

Lemma last_dot_ext s :
  last_dot (s ++ lit ".md") = Some (s, lit ".md").
Proof.
  induction s as [|c s IH]; [reflexivity|]. simpl app.
  change (last_dot (c :: s ++ lit ".md")) with
    (match last_dot (s ++ lit ".md") with
     | Some (before, ext) => Some (c :: before, ext)
     | None => if c =? DOT then Some ([], c :: s ++ lit ".md") else None
     end).
  by rewrite IH.
Qed.

Lemma shown_title_safe t :
  map (fun c => if c =? USCORE then SP else c) (safe_title t) = shown_title t.
Proof.
  unfold safe_title, shown_title. rewrite map_map. apply map_ext. intros c.
  destruct (is_illegal c); [done|]. simpl. done.
Qed.

(** X24. From a chapter to the index of the merged document: when the
    title of a chapter holds a character other than a dot and its file
    name does not hold [_summary.md], the title shown for its summary in
    the merged document is the title of the chapter with the characters
    replaced in file names, and underscores, turned into spaces. *)
Theorem chapter_title_of_saved_chapter (chapters_dir summaries_dir : str) (ch : chapter) :
  existsb (fun c => negb (c =? DOT)) (safe_title (title ch)) = true ->
  contains (lit "_summary.md") (safe_title (title ch)) = false ->
  chapter_title (output_path_of summaries_dir (md_path chapters_dir ch))
  = shown_title (title ch).
Proof.
  intros Hdot Hc. unfold output_path_of. rewrite md_path_basename_eq.
  unfold splitext_root. rewrite last_dot_ext, Hdot.
  unfold chapter_title. rewrite basename_path_join.
  2:{ apply Forall_app. split; [apply legal_no_slash, safe_title_legal|].
      by repeat constructor. }
  unfold replace at 2. rewrite replace_summary_suffix; [|rewrite length_app; simpl; lia|done].
  unfold replace. rewrite replace_char by done. apply shown_title_safe.
Qed.

End DisplayTitle.

Section DisplayTitleWitness.
Import EpubHandler Files Storage Batch AIHandler Notions Titles Inputs.

(** X24 on a chapter titled [Chapter 1: A]. *)
Lemma chapter_title_of_saved_chapter_witness :
  let ch := plain_chapter (lit "Chapter 1: A") (lit "x") in
  existsb (fun c => negb (c =? DOT)) (safe_title (title ch)) = true
  /\ contains (lit "_summary.md") (safe_title (title ch)) = false
  /\ chapter_title (output_path_of (lit "out") (md_path (lit "out") ch))
     = lit "Chapter 1  A".
Proof.
  intros ch. split; [reflexivity|]. split; [reflexivity|].
  rewrite (chapter_title_of_saved_chapter (lit "out") (lit "out") ch eq_refl eq_refl).
  reflexivity.
Defined.

End DisplayTitleWitness.

(** ** Letter case in the two grammars *)

Section LetterCase.
Import Regex EpubHandler Titles.

Implicit Types (r : regex) (s : str) (c : N) (f : N -> N).

Lemma matches_map_1 f r s : respects f r -> matches r s -> matches r (map f s).
Proof.
  intros Hr H. induction H; simpl in *.
  - constructor.
  - constructor. by rewrite Hr.
  - rewrite map_app. destruct Hr. constructor; auto.
  - destruct Hr. apply MAltL. auto.
  - destruct Hr. apply MAltR. auto.
  - constructor.
  - rewrite map_app. constructor; auto.
Qed.

Lemma matches_map_2 f r s' : respects f r -> matches r s' ->
  forall s, s' = map f s -> matches r s.
Proof.
  intros Hr H. induction H; intros t0 Es; simpl in *.
  - symmetry in Es. apply map_eq_nil in Es as ->. constructor.
  - destruct t0 as [|c0 [|? ?]]; try discriminate. injection Es as ->.
    constructor. by rewrite <- Hr.
  - symmetry in Es. apply map_eq_app in Es as (t1 & t2 & -> & E1 & E2).
    destruct Hr. constructor; eauto.
  - destruct Hr. apply MAltL. eauto.
  - destruct Hr. apply MAltR. eauto.
  - symmetry in Es. apply map_eq_nil in Es as ->. constructor.
  - symmetry in Es. apply map_eq_app in Es as (t1 & t2 & -> & E1 & E2).
    constructor; eauto.
Qed.

Lemma fullmatch_map f r s :
  respects f r -> fullmatch r (map f s) = fullmatch r s.
Proof.
  intros Hr. apply eq_true_iff_eq. rewrite !fullmatch_matches. split.
  - intros H. by apply (matches_map_2 f r (map f s)).
  - by apply matches_map_1.
Qed.

Lemma ascii_upper_cases c :
  ascii_upper c = c \/ (97 <= c <= 122 /\ ascii_upper c = c - 32).
Proof.
  unfold ascii_upper. destruct ((97 <=? c) && (c <=? 122)) eqn:E; [|by left].
  apply andb_true_iff in E as [?%N.leb_le ?%N.leb_le]. right. lia.
Qed.

Lemma upper_eqb x c :
  is_ascii_letter x = false -> (x =? ascii_upper c) = (x =? c).
Proof.
  intros Hx. destruct (ascii_upper_cases c) as [->|[Hc ->]]; [done|].
  unfold is_ascii_letter in Hx.
  rewrite orb_false_iff, !andb_false_iff, !N.leb_gt in Hx.
  transitivity false; [|symmetry]; apply N.eqb_neq; lia.
Qed.

Lemma upper_oneof (l : list N) c :
  forallb (fun x => negb (is_ascii_letter x)) l = true ->
  existsb (N.eqb (ascii_upper c)) l = existsb (N.eqb c) l.
Proof.
  induction l as [|x l IH]; simpl; [done|]. intros H.
  apply andb_true_iff in H as [Hx H]. apply negb_true_iff in Hx.
  rewrite IH by done. f_equal.
  rewrite (N.eqb_sym (ascii_upper c)), (N.eqb_sym c). by apply upper_eqb.
Qed.

Lemma upper_is_space c : is_space (ascii_upper c) = is_space c.
Proof.
  destruct (ascii_upper_cases c) as [->|[Hc ->]]; [done|].
  transitivity false; [|symmetry]; unfold is_space;
    rewrite !orb_false_iff, !andb_false_iff, !N.leb_gt, !N.eqb_neq; lia.
Qed.

Lemma upper_tolower c : tolower (ascii_upper c) = tolower c.
Proof.
  destruct (ascii_upper_cases c) as [->|[Hc ->]]; [done|].
  unfold tolower.
  assert ((65 <=? c - 32) && (c - 32 <=? 90) = true) as ->.
  { apply andb_true_iff. rewrite !N.leb_le. lia. }
  assert ((65 <=? c) && (c <=? 90) = false) as ->.
  { apply andb_false_iff. rewrite !N.leb_gt. lia. }
  assert ((c =? 304) = false) as -> by (apply N.eqb_neq; lia).
  assert ((c =? 8490) = false) as -> by (apply N.eqb_neq; lia).
  lia.
Qed.

Lemma upper_ci_eq a c : ci_eq a (ascii_upper c) = ci_eq a c.
Proof. unfold ci_eq. by rewrite upper_tolower. Qed.

Lemma upper_lower c : ascii_upper (ascii_lower c) = ascii_upper c.
Proof.
  unfold ascii_lower, ascii_upper.
  destruct ((65 <=? c) && (c <=? 90)) eqn:E1.
  - apply andb_true_iff in E1 as [?%N.leb_le ?%N.leb_le].
    assert ((97 <=? c + 32) && (c + 32 <=? 122) = true) as ->.
    { apply andb_true_iff. rewrite !N.leb_le. lia. }
    assert ((97 <=? c) && (c <=? 122) = false) as ->.
    { apply andb_false_iff. rewrite !N.leb_gt. lia. }
    lia.
  - done.
Qed.

(** Solves the goal that the classes of a pattern of the program do not
    tell a letter from its upper-case form. *)
Ltac respects_upper :=
  cbv [respects word_ci lit fold_right map list_ascii_of_string
       chr chr_ci oneof plus opt dot space nonspace anychar];
  repeat split; intros c;
  first [ apply upper_ci_eq
        | apply upper_eqb; reflexivity
        | apply upper_oneof; reflexivity
        | by rewrite upper_is_space
        | apply upper_is_space
        | reflexivity
        | rewrite (N.eqb_sym (ascii_upper c)), (N.eqb_sym c);
          apply upper_eqb; reflexivity
        | f_equal; rewrite (N.eqb_sym (ascii_upper c)), (N.eqb_sym c);
          apply upper_eqb; reflexivity ].

Lemma chapter_line_respects_upper :
  respects ascii_upper (Cat chapter_regex (opt (chr LF))).
Proof.
  unfold chapter_regex, chapter_marker, cjk_numeral, blank. respects_upper.
Qed.

Lemma is_chapter_line_upper s :
  is_chapter_line (map ascii_upper s) = is_chapter_line s.
Proof. apply fullmatch_map, chapter_line_respects_upper. Qed.

(** X25. The chapter grammar of the pattern detector does not depend on
    the case of ASCII letters: a line is a heading line exactly when the
    line in upper case, or in lower case, is one. *)
Theorem is_chapter_line_case (line : str) :
  is_chapter_line (map ascii_upper line) = is_chapter_line line
  /\ is_chapter_line (map ascii_lower line) = is_chapter_line line.
Proof.
  split; [apply is_chapter_line_upper|].
  rewrite <- (is_chapter_line_upper (map ascii_lower line)), map_map.
  rewrite (map_ext _ ascii_upper) by apply upper_lower.
  apply is_chapter_line_upper.
Qed.

Lemma re_test_upper s : re_test (map ascii_upper s) = re_test s.
Proof.
  unfold re_test, search, search_to_end.
  rewrite !fullmatch_map; [done|..];
    unfold structural_word, framing_word; respects_upper.
Qed.

(** X26. The test of the text of a heading element in the structural
    detector does not depend on the case of ASCII letters either. *)
Theorem re_test_case (text : str) :
  re_test (map ascii_upper text) = re_test text
  /\ re_test (map ascii_lower text) = re_test text.
Proof.
  split; [apply re_test_upper|].
  rewrite <- (re_test_upper (map ascii_lower text)), map_map.
  rewrite (map_ext _ ascii_upper) by apply upper_lower.
  apply re_test_upper.
Qed.

End LetterCase.

(** ** The synthetic identifiers of listed chapters *)

Section SyntheticHref.
Import EpubHandler Examples.

Variable text_content : node -> option str.

Lemma uint_digits_inj u v : uint_digits u = uint_digits v -> u = v.
Proof.
  revert v. induction u as [|u IH|u IH|u IH|u IH|u IH|u IH|u IH|u IH|u IH|u IH];
    intros v H; destruct v; simpl in H; try discriminate; try done;
    injection H as H; f_equal; by apply IH.
Qed.

Lemma str_of_nat_inj i j : str_of_nat i = str_of_nat j -> i = j.
Proof.
  intros H. apply uint_digits_inj in H. by apply Unsigned.to_uint_inj.
Qed.

Lemma chapter_href_inj i j : chapter_href i = chapter_href j -> i = j.
Proof.
  unfold chapter_href. intros H. apply app_inv_head in H.
  apply app_inv_tail in H. by apply str_of_nat_inj.
Qed.

Lemma fill_keys_plain i (ch : chapter) :
  href ch = None -> level ch = None ->
  href (fill_keys i ch) = Some (chapter_href i)
  /\ level (fill_keys i ch) = Some 0%nat.
Proof. intros Hh Hl. unfold fill_keys. simpl. by rewrite Hh, Hl. Qed.

(** X27. When the pattern detector finds chapters, the enumeration for
    user choice by [regex] gives the chapter at position [i] the
    identifier [chapter_<i>.html] and the level 0, and no two chapters of
    the list share an identifier. *)
Theorem get_all_chapters_regex_hrefs (b : book) :
  split_by_regex (extract_all_text b) <> [] ->
  let listed := get_all_chapters text_content b (lit "regex") in
  length listed = length (split_by_regex (extract_all_text b))
  /\ (forall i ch, listed !! i = Some ch ->
        href ch = Some (chapter_href i) /\ level ch = Some 0%nat)
  /\ NoDup (map href listed).
Proof.
  intros Hne listed.
  assert (listed = imap fill_keys (split_by_regex (extract_all_text b))) as E.
  { unfold listed, get_all_chapters, requested_chapters. simpl.
    unfold with_fallback.
    by destruct (split_by_regex (extract_all_text b)). }
  assert (forall i ch, listed !! i = Some ch ->
            href ch = Some (chapter_href i) /\ level ch = Some 0%nat) as Hkeys.
  { intros i ch Hi. rewrite E, list_lookup_imap in Hi.
    destruct (split_by_regex (extract_all_text b) !! i) as [raw|] eqn:Er; [|done].
    injection Hi as <-.
    pose proof (split_by_regex_no_keys (extract_all_text b)) as Hk.
    eapply Forall_lookup_1 in Hk as [Hh Hl]; [|exact Er].
    by apply fill_keys_plain. }
  split; [by rewrite E, length_imap|]. split; [exact Hkeys|].
  apply NoDup_alt. intros i j h Hi Hj.
  change (map href listed) with (href <$> listed) in Hi, Hj.
  rewrite list_lookup_fmap in Hi, Hj.
  destruct (listed !! i) as [ci|] eqn:Eci; [|done].
  destruct (listed !! j) as [cj|] eqn:Ecj; [|done].
  simpl in Hi, Hj. injection Hi as Hi. injection Hj as Hj.
  destruct (Hkeys i ci Eci) as [Hhi _]. destruct (Hkeys j cj Ecj) as [Hhj _].
  rewrite Hhi in Hi. rewrite Hhj in Hj. rewrite <- Hj in Hi.
  apply chapter_href_inj. exact (Some_inj _ _ Hi).
Qed.

End SyntheticHref.

Section SyntheticHrefWitness.
Import EpubHandler Examples.

(** X27 on the book of one document. *)
Lemma get_all_chapters_regex_hrefs_witness :
  split_by_regex (extract_all_text one_chapter_book) <> []
  /\ map href (get_all_chapters html_text_content one_chapter_book (lit "regex"))
     = [Some (lit "chapter_0.html")].
Proof.
  assert (split_by_regex (extract_all_text one_chapter_book) <> []) as H
    by discriminate.
  split; [exact H|].
  destruct (get_all_chapters_regex_hrefs html_text_content one_chapter_book H)
    as (_ & Hk & _).
  destruct (get_all_chapters html_text_content one_chapter_book (lit "regex"))
    as [|ch [|? ?]] eqn:E; try discriminate E.
  destruct (Hk 0%nat ch eq_refl) as [Hh _]. simpl. by rewrite Hh.
Defined.

End SyntheticHrefWitness.
